(** * Frostware utility bot: the temporary-grant scheduler of [Main.py]

    A shallow embedding of the permission and timeout logic of the bot
    ([parse_duration], [is_permitted], [whitelist], [permit], [unpermit] and
    the two expiry coroutines) together with the statements of its
    specification that can be checked on it.

    Modelling conventions.
    - A Python [str] is a [string]; a character is a code point below 256
      (the Latin-1 part of Unicode).
    - A Python [int] is a [Z]; [int(str)] raises [ValueError] for a numeral
      of more than 4300 digits, the interpreter's default limit;
      [float('inf')] is the constructor [Infinite].
    - The module-level [permitted_users] set is a [gset Z], the module-level
      [user_timeouts] dict is a [gmap Z nat] from user ids to task handles.
    - The guild is the map from member ids to the role ids they hold; a
      backend call that Discord accepts updates it, and Discord's answer to
      each call is given by the environment.
    - The asyncio event loop is a pool of tasks with a status and a wake-up
      time on a clock counted in seconds.  A command handler runs up to its
      final [ctx.send] in one step; the first run of a task and the
      wake-up of a sleeping task are steps of the loop.  Both coroutines
      sleep before their [try] block, so a task cancelled in its sleep, or
      whose sleep raises, runs none of its body. *)

From Stdlib Require Import ZArith NArith Ascii String List Lia.
From Stdlib Require Import DecimalString DecimalN DecimalPos DecimalFacts.
From stdpp Require Import base option gmap sets list strings.

Local Open Scope Z_scope.
Local Open Scope string_scope.

(** ** Python strings *)

Module PyStr.

Definition code (c : ascii) : N := N_of_ascii c.

(** [str.lower] on one code point below 256: [A-Z] and the Latin-1
    capitals (all of 192..222 but the multiplication sign 215) move up
    by 32. *)
Definition lower_char (c : ascii) : ascii :=
  let n := code c in
  if ((65 <=? n) && (n <=? 90))%N then ascii_of_N (n + 32)
  else if ((192 <=? n) && (n <=? 222) && negb (n =? 215))%N
       then ascii_of_N (n + 32)
  else c.

Fixpoint lower (s : string) : string :=
  match s with
  | EmptyString => EmptyString
  | String c r => String (lower_char c) (lower r)
  end.

(** [s.endswith(c)] for a one-character suffix. *)
Fixpoint endswith (s : string) (c : ascii) : bool :=
  match s with
  | EmptyString => false
  | String a EmptyString => Ascii.eqb a c
  | String _ r => endswith r c
  end.

(** [s[:-1]]. *)
Fixpoint drop_last (s : string) : string :=
  match s with
  | EmptyString => EmptyString
  | String _ EmptyString => EmptyString
  | String a r => String a (drop_last r)
  end.

Definition is_digit (c : ascii) : bool :=
  ((48 <=? code c) && (code c <=? 57))%N.

Definition digit_value (c : ascii) : Z := Z.of_N (code c - 48).

(** White space skipped by [int(str)]: the ASCII blanks 9..13 and 32, and
    the two Latin-1 spaces 133 and 160 that the conversion turns into a
    blank first. *)
Definition is_space (c : ascii) : bool :=
  let n := code c in
  (((9 <=? n) && (n <=? 13)) || (n =? 32) || (n =? 133) || (n =? 160))%N.

Definition is_underscore (c : ascii) : bool := Ascii.eqb c "_".

Fixpoint skip_space (s : string) : string :=
  match s with
  | String c r => if is_space c then skip_space r else s
  | EmptyString => s
  end.

(** The digit loop of the base-10 conversion: digits accumulate, a single
    underscore may sit between two digits, two in a row or one at the end
    are errors.  [prev] is the character read last. *)
Fixpoint scan_digits (prev : ascii) (acc : Z) (s : string)
  : option (Z * string) :=
  match s with
  | String c r =>
      if is_digit c then scan_digits c (10 * acc + digit_value c) r
      else if is_underscore c then
        if is_underscore prev then None else scan_digits c acc r
      else if is_underscore prev then None else Some (acc, s)
  | EmptyString => if is_underscore prev then None else Some (acc, s)
  end.

(** The number of digits the digit loop reads: the digits of [s] up to the
    first character that is neither a digit nor an underscore. *)
Fixpoint digit_run (s : string) : Z :=
  match s with
  | String c r =>
      if is_digit c then 1 + digit_run r
      else if is_underscore c then digit_run r
      else 0
  | EmptyString => 0
  end.

(** [sys.get_int_max_str_digits()]: the interpreter's default limit on the
    number of digits [int(str)] converts. *)
Definition int_max_str_digits : Z := 4300.

(** The conversion after the sign: no leading underscore, at least one
    character consumed by the digit loop, no more digits than the limit
    allows, then blanks up to the end. *)
Definition int_unsigned (s : string) : option Z :=
  match s with
  | String "_" _ => None
  | _ =>
      match scan_digits zero 0 s with
      | None => None
      | Some (n, rest) =>
          if (String.length rest =? String.length s)%nat then None
          else if (int_max_str_digits <? digit_run s)%Z then None
          else
            match skip_space rest with
            | EmptyString => Some n
            | String _ _ => None
            end
      end
  end.

(** [int(s)]: [Some n] for the value, [None] where Python raises
    [ValueError].  Blanks, an optional sign, digits, blanks, end. *)
Definition int (s : string) : option Z :=
  match skip_space s with
  | String "+" r => int_unsigned r
  | String "-" r => Z.opp <$> int_unsigned r
  | s1 => int_unsigned s1
  end.

(** [all(p(c) for c in s)]. *)
Fixpoint all_chars (p : ascii -> bool) (s : string) : bool :=
  match s with
  | EmptyString => true
  | String c r => p c && all_chars p r
  end.

End PyStr.

(** ** [parse_duration] *)

(** What [parse_duration] returns when it does not return [None]:
    [float('inf')] or an [int] number of seconds. *)
Inductive duration : Type :=
| Infinite
| Seconds (n : Z).

Definition parse_duration (duration_str : string) : option duration :=
  if String.eqb (PyStr.lower duration_str) "inf"
     || String.eqb (PyStr.lower duration_str) "infinite"
  then Some Infinite
  else if PyStr.endswith duration_str "m" then
    match PyStr.int (PyStr.drop_last duration_str) with
    | Some n => Some (Seconds (n * 60))
    | None => None
    end
  else if PyStr.endswith duration_str "h" then
    match PyStr.int (PyStr.drop_last duration_str) with
    | Some n => Some (Seconds (n * 3600))
    | None => None
    end
  else if PyStr.endswith duration_str "d" then
    match PyStr.int (PyStr.drop_last duration_str) with
    | Some n => Some (Seconds (n * 86400))
    | None => None
    end
  else
    match PyStr.int duration_str with
    | Some n => Some (Seconds (n * 60))
    | None => None
    end.

Local Close Scope string_scope.

(** ** The guild, the event loop and the module state *)

(** Calls made to Discord's role endpoints. *)
Inductive backend_call : Type :=
| add_roles (user role : Z)
| remove_roles (user role : Z).

(** How a backend call ends: normally, or with one of the exceptions of
    [discord.py]. *)
Inductive response : Type :=
| OK
| Forbidden
| NotFound
| HTTPException.

(** The configuration read from the environment at start-up and the
    collaborators outside the process: which roles the guild knows
    ([ctx.guild.get_role]), how Discord answers the [n]-th backend call, and
    how it answers the message a handler sends from inside its [try] block
    after [n] backend calls. *)
Record env : Type := {
  ADMIN_ROLE_ID : Z;
  ESSENTIAL_ROLE_ID : Z;
  PRIME_ROLE_ID : Z;
  get_role : Z -> bool;
  discord : nat -> backend_call -> response;
  ctx_send : nat -> response
}.

(** The two coroutines handed to [asyncio.create_task]. *)
Inductive coroutine : Type :=
| remove_role_after_timeout (user role duration : Z)
| remove_permit_after_timeout (user_id duration : Z).

Inductive task_status : Type :=
| Pending      (* scheduled, or sleeping in [asyncio.sleep] *)
| Cancelled    (* [Task.cancel] was called before it woke *)
| Done         (* the body after the sleep has run *)
| Failed.      (* [asyncio.sleep] raised: the coroutine ended before its [try] *)

Record task : Type := {
  coro : coroutine;
  wake_at : Z;
  status : task_status
}.

Inductive log_entry : Type :=
| log_info_role_removed (user role : Z)
| log_warning_user_not_found (user : Z)
| log_error_removing_role (user : Z)
| log_info_permit_removed (user_id : Z)
| log_error_command.

(** The module-level state, the guild's role assignment and the event
    loop.  A task handle is the index of the task in [tasks]. *)
Record state : Type := {
  clock : Z;
  permitted_users : gset Z;
  user_timeouts : gmap Z nat;
  tasks : list task;
  member_roles : gmap Z (list Z);
  backend_calls : list backend_call;
  log : list log_entry
}.

(** What a command handler sends back. *)
Inductive reply : Type :=
| AccessDenied
| InvalidPlan
| InvalidDuration
| RoleNotFound
| UserWhitelisted (duration_text : string)
| PermissionError
| CommandError
| PermissionGranted (duration_text : string)
| PermissionRevoked
| NotPermitted.

Definition initial (guild : gmap Z (list Z)) : state :=
  {| clock := 0; permitted_users := ∅; user_timeouts := ∅; tasks := [];
     member_roles := guild; backend_calls := []; log := [] |}.

Definition set_permitted_users (f : gset Z -> gset Z) (st : state) : state :=
  {| clock := clock st; permitted_users := f (permitted_users st);
     user_timeouts := user_timeouts st; tasks := tasks st;
     member_roles := member_roles st; backend_calls := backend_calls st;
     log := log st |}.

Definition set_user_timeouts (f : gmap Z nat -> gmap Z nat) (st : state) : state :=
  {| clock := clock st; permitted_users := permitted_users st;
     user_timeouts := f (user_timeouts st); tasks := tasks st;
     member_roles := member_roles st; backend_calls := backend_calls st;
     log := log st |}.

Definition set_tasks (f : list task -> list task) (st : state) : state :=
  {| clock := clock st; permitted_users := permitted_users st;
     user_timeouts := user_timeouts st; tasks := f (tasks st);
     member_roles := member_roles st; backend_calls := backend_calls st;
     log := log st |}.

Definition set_member_roles (f : gmap Z (list Z) -> gmap Z (list Z)) (st : state)
  : state :=
  {| clock := clock st; permitted_users := permitted_users st;
     user_timeouts := user_timeouts st; tasks := tasks st;
     member_roles := f (member_roles st); backend_calls := backend_calls st;
     log := log st |}.

Definition record_call (c : backend_call) (st : state) : state :=
  {| clock := clock st; permitted_users := permitted_users st;
     user_timeouts := user_timeouts st; tasks := tasks st;
     member_roles := member_roles st;
     backend_calls := backend_calls st ++ [c]; log := log st |}.

Definition logger (e : log_entry) (st : state) : state :=
  {| clock := clock st; permitted_users := permitted_users st;
     user_timeouts := user_timeouts st; tasks := tasks st;
     member_roles := member_roles st; backend_calls := backend_calls st;
     log := log st ++ [e] |}.

Definition set_clock (t : Z) (st : state) : state :=
  {| clock := t; permitted_users := permitted_users st;
     user_timeouts := user_timeouts st; tasks := tasks st;
     member_roles := member_roles st; backend_calls := backend_calls st;
     log := log st |}.

(** [user.roles]: the ids of the roles the member holds. *)
Definition roles (st : state) (user : Z) : list Z :=
  default [] (member_roles st !! user).

(** The effect of a successful [user.add_roles(role)] and
    [user.remove_roles(role)] on the guild. *)
Definition guild_add (user role : Z) (g : gmap Z (list Z)) : gmap Z (list Z) :=
  let rs := default [] (g !! user) in
  if existsb (fun x => x =? role) rs then g else <[user := rs ++ [role]]> g.

Definition guild_remove (user role : Z) (g : gmap Z (list Z)) : gmap Z (list Z) :=
  match g !! user with
  | Some rs => <[user := List.filter (fun r => negb (r =? role)) rs]> g
  | None => g
  end.

Definition coro_duration (c : coroutine) : Z :=
  match c with
  | remove_role_after_timeout _ _ d => d
  | remove_permit_after_timeout _ d => d
  end.

Definition coro_user (c : coroutine) : Z :=
  match c with
  | remove_role_after_timeout u _ _ => u
  | remove_permit_after_timeout u _ => u
  end.

(** [asyncio.create_task(c)] at the current time: the task is scheduled
    and its handle is returned.  It runs for the first time at the next turn
    of the loop ([start_sleep]); until then it can be cancelled like a
    sleeping one.  [wake_at] is the time its sleep ends (a delay that is not
    positive is due at once). *)
Definition create_task (c : coroutine) (st : state) : state * nat :=
  (set_tasks (fun ts => ts ++ [{| coro := c; wake_at := clock st + coro_duration c;
                                  status := Pending |}]) st,
   length (tasks st)).

Definition set_status (s : task_status) (t : task) : task :=
  {| coro := coro t; wake_at := wake_at t; status := s |}.

(** [asyncio.sleep(d)] adds the delay to the clock of the loop, a float: an
    [int] from [2^1024 - 2^970] on does not convert, and the call raises
    [OverflowError]. *)
Definition sleep_overflows (d : Z) : bool := 2 ^ 1024 - 2 ^ 970 <=? d.

(** The first run of a task, up to its [asyncio.sleep]: with a delay that
    overflows the task ends there, before the [try] block of its coroutine,
    and nothing of its body runs. *)
Definition start_sleep (t : task) : task :=
  match status t with
  | Pending => if sleep_overflows (coro_duration (coro t))
               then set_status Failed t else t
  | _ => t
  end.

(** A turn of the loop gives every task that has not run yet its first
    run. *)
Definition start_tasks (st : state) : state := set_tasks (fmap start_sleep) st.

(** [Task.cancel()]: a sleeping task is cancelled, a finished one is left
    as it is. *)
Definition cancel (h : nat) (st : state) : state :=
  set_tasks (alter (fun t => match status t with
                             | Pending => set_status Cancelled t
                             | _ => t
                             end) h) st.

(** The timers that are due by [target], earliest first; timers with the
    same wake-up time in the order the tasks were created. *)
Fixpoint insert_due (x : Z * nat) (l : list (Z * nat)) : list (Z * nat) :=
  match l with
  | [] => [x]
  | y :: r => if fst x <=? fst y then x :: l else y :: insert_due x r
  end.

Fixpoint due_from (h : nat) (target : Z) (ts : list task) : list (Z * nat) :=
  match ts with
  | [] => []
  | t :: r =>
      let rest := due_from (S h) target r in
      match status t with
      | Pending => if wake_at t <=? target then insert_due (wake_at t, h) rest
                   else rest
      | _ => rest
      end
  end.

Definition due (target : Z) (st : state) : list nat :=
  map snd (due_from 0 target (tasks st)).

(** ** The bot *)

Section Bot.

Variable E : env.

Definition is_admin (st : state) (user : Z) : bool :=
  existsb (fun role => role =? ADMIN_ROLE_ID E) (roles st user).

Definition has_essential_role (st : state) (user : Z) : bool :=
  existsb (fun role => role =? ESSENTIAL_ROLE_ID E) (roles st user).

Definition has_prime_role (st : state) (user : Z) : bool :=
  existsb (fun role => role =? PRIME_ROLE_ID E) (roles st user).

Definition is_permitted (st : state) (user : Z) : bool :=
  is_admin st user
  || has_essential_role st user
  || has_prime_role st user
  || bool_decide (user ∈ permitted_users st).

(** The [ctx.send] of the success message stands inside the [try] block of
    [whitelist]: when Discord forbids it, the handler ends in its [except]
    branch with the permission-error message; any other failure leaves the
    handler and is logged.  The state is the one reached before the send. *)
Definition send_in_try (st : state) (sent : reply) : state * reply :=
  match ctx_send E (length (backend_calls st)) with
  | OK => (st, sent)
  | Forbidden => (st, PermissionError)
  | _ => (logger log_error_command st, CommandError)
  end.

Definition whitelist (st : state) (author user : Z) (duration plan : string)
  : state * reply :=
  if negb (is_admin st author) then (st, AccessDenied)
  else if negb (String.eqb (PyStr.lower plan) "essential"
                || String.eqb (PyStr.lower plan) "prime")
  then (st, InvalidPlan)
  else
    match parse_duration duration with
    | None => (st, InvalidDuration)
    | Some duration_seconds =>
        let role_id := if String.eqb (PyStr.lower plan) "essential"
                       then ESSENTIAL_ROLE_ID E else PRIME_ROLE_ID E in
        if negb (get_role E role_id) then (st, RoleNotFound)
        else
          let call := add_roles user role_id in
          let st1 := record_call call st in
          match discord E (length (backend_calls st)) call with
          | OK =>
              let st2 := set_member_roles (guild_add user role_id) st1 in
              match duration_seconds with
              | Seconds d =>
                  let '(st3, h) :=
                    create_task (remove_role_after_timeout user role_id d) st2 in
                  send_in_try (set_user_timeouts <[user := h]> st3)
                              (UserWhitelisted duration)
              | Infinite => send_in_try st2 (UserWhitelisted "permanent")
              end
          | Forbidden => (st1, PermissionError)
          | _ => (logger log_error_command st1, CommandError)
          end
    end.

Definition permit (st : state) (author user : Z) (duration : string)
  : state * reply :=
  if negb (is_admin st author) then (st, AccessDenied)
  else
    match parse_duration duration with
    | None => (st, InvalidDuration)
    | Some duration_seconds =>
        let st1 := set_permitted_users (fun s => s ∪ {[user]}) st in
        match duration_seconds with
        | Seconds d =>
            let '(st2, h) :=
              create_task (remove_permit_after_timeout user d) st1 in
            (set_user_timeouts <[user := h]> st2, PermissionGranted duration)
        | Infinite => (st1, PermissionGranted "permanent")
        end
    end.

Definition unpermit (st : state) (author user : Z) : state * reply :=
  if negb (is_admin st author) then (st, AccessDenied)
  else if bool_decide (user ∈ permitted_users st) then
    let st1 := set_permitted_users (fun s => s ∖ {[user]}) st in
    let st2 := match user_timeouts st1 !! user with
               | Some h => set_user_timeouts (delete user) (cancel h st1)
               | None => st1
               end in
    (st2, PermissionRevoked)
  else (st, NotPermitted).

(** The [finally] clause shared by the two coroutines. *)
Definition forget_timeout (user : Z) (st : state) : state :=
  match user_timeouts st !! user with
  | Some _ => set_user_timeouts (delete user) st
  | None => st
  end.

(** The part of a coroutine that runs once [asyncio.sleep] returns. *)
Definition resume (c : coroutine) (st : state) : state :=
  match c with
  | remove_role_after_timeout user role _ =>
      let call := remove_roles user role in
      let st1 := record_call call st in
      let st2 :=
        match discord E (length (backend_calls st)) call with
        | OK => logger (log_info_role_removed user role)
                  (set_member_roles (guild_remove user role) st1)
        | NotFound => logger (log_warning_user_not_found user) st1
        | _ => logger (log_error_removing_role user) st1
        end in
      forget_timeout user st2
  | remove_permit_after_timeout user_id _ =>
      let st1 := set_permitted_users (fun s => s ∖ {[user_id]}) st in
      let st2 := logger (log_info_permit_removed user_id) st1 in
      forget_timeout user_id st2
  end.

(** The event loop resumes task [h]: only a task that still sleeps runs. *)
Definition wake (h : nat) (st : state) : state :=
  match tasks st !! h with
  | Some t =>
      match status t with
      | Pending => set_tasks (alter (set_status Done) h) (resume (coro t) st)
      | _ => st
      end
  | None => st
  end.

(** [dt] seconds pass: a task that has not run yet starts, every timer due
    by then fires, then the clock stands at the new time. *)
Definition elapse (dt : N) (st : state) : state :=
  let target := clock st + Z.of_N dt in
  let st0 := start_tasks st in
  set_clock target (foldl (fun s h => wake h s) st0 (due target st0)).

Inductive event : Type :=
| Whitelist (author user : Z) (duration plan : string)
| Permit (author user : Z) (duration : string)
| Unpermit (author user : Z)
| Elapse (dt : N).

Definition step (st : state) (ev : event) : state :=
  match ev with
  | Whitelist author user duration plan =>
      fst (whitelist st author user duration plan)
  | Permit author user duration => fst (permit st author user duration)
  | Unpermit author user => fst (unpermit st author user)
  | Elapse dt => elapse dt st
  end.

Definition run (st : state) (evs : list event) : state := foldl step st evs.

End Bot.

(** ** Vocabulary of the specification *)

(** The decimal numeral of a natural number, as the standard library prints
    it. *)
Definition string_of_N (n : N) : string :=
  NilEmpty.string_of_uint (N.to_uint n).



(** The characters a decimal numeral accepted by [int] is made of. *)
Definition int_alphabet (c : ascii) : bool :=
  PyStr.is_digit c || PyStr.is_space c || PyStr.is_underscore c
  || Ascii.eqb c "+" || Ascii.eqb c "-".

(** The digits of an integer literal after its first digit: each one a
    digit, or an underscore and a digit. *)
Inductive groups_tail : string -> Prop :=
| gt_end : groups_tail EmptyString
| gt_digit (c : ascii) (s : string) :
    PyStr.is_digit c = true -> groups_tail s -> groups_tail (String c s)
| gt_sep (c : ascii) (s : string) :
    PyStr.is_digit c = true -> groups_tail s ->
    groups_tail (String "_" (String c s)).

(** The number of digits in a text. *)
Fixpoint count_digits (s : string) : Z :=
  match s with
  | EmptyString => 0
  | String c r => (if PyStr.is_digit c then 1 else 0) + count_digits r
  end.

(** The integer literals of the language in base 10: blanks, an optional
    sign, a digit and its tail, of at most 4300 digits in all, blanks. *)
Inductive int_literal : string -> Prop :=
| int_lit (l sign : string) (c : ascii) (t r : string) :
    PyStr.all_chars PyStr.is_space l = true ->
    sign = EmptyString \/ sign = String "+" EmptyString
    \/ sign = String "-" EmptyString ->
    PyStr.is_digit c = true ->
    groups_tail t ->
    count_digits (String c t) <= 4300 ->
    PyStr.all_chars PyStr.is_space r = true ->
    int_literal (l ++ sign ++ String c t ++ r)%string.

(** The text [parse_duration] hands to [int]: the input without its unit
    letter, or all of it when it ends in none. *)
Definition numeric_part (s : string) : string :=
  if PyStr.endswith s "m" || PyStr.endswith s "h" || PyStr.endswith s "d"
  then PyStr.drop_last s else s.

(** [s] is none of the two words for an unbounded duration. *)
Definition not_inf (s : string) : Prop :=
  String.eqb (PyStr.lower s) "inf" || String.eqb (PyStr.lower s) "infinite"
  = false.

(** No sleeping task of the event loop that is bound to [user] is due by
    the time [target]. *)
Definition no_timer_due_for (user : Z) (target : Z) (st : state) : bool :=
  forallb (fun t => match status t with
                    | Pending =>
                        negb ((coro_user (coro t) =? user)
                              && (wake_at t <=? target))
                    | _ => true
                    end) (tasks st).

(** The status of the task behind a handle. *)
Definition status_of (h : nat) (st : state) : option task_status :=
  status <$> tasks st !! h.

(** A small world for running the bot: role 1 is the admin role, roles 2
    and 3 are the plans, member 100 is an admin, and Discord accepts every
    call. *)
Definition demo_env : env :=
  {| ADMIN_ROLE_ID := 1; ESSENTIAL_ROLE_ID := 2; PRIME_ROLE_ID := 3;
     get_role := fun r => (r =? 2) || (r =? 3);
     discord := fun _ _ => OK;
     ctx_send := fun _ => OK |}.

Definition demo_guild : gmap Z (list Z) := {[ 100 := [1] ]}.


(** The same world with a Discord that forbids the bot to write in the
    channel. *)
Definition muted_env : env :=
  {| ADMIN_ROLE_ID := 1; ESSENTIAL_ROLE_ID := 2; PRIME_ROLE_ID := 3;
     get_role := fun r => (r =? 2) || (r =? 3);
     discord := fun _ _ => OK;
     ctx_send := fun _ => Forbidden |}.

(** ** The read-only command and the status report *)



(** The dictionary [update_bot_status] writes to [bot_status.json], given
    whether the bot is ready, the number of its guilds and its latency once
    rounded to milliseconds. *)
Record status_data : Type := {
  online : bool;
  guilds : nat;
  reported_permitted_users : nat;
  latency : Z
}.

Definition update_bot_status (ready : bool) (n_guilds : nat) (latency_ms : Z)
           (st : state) : status_data :=
  {| online := ready;
     guilds := if ready then n_guilds else 1%nat;
     reported_permitted_users := size (permitted_users st);
     latency := if ready then latency_ms else 0 |}.

(** ** Reachable states and their invariants *)

(** The states the bot gets into from start-up in a guild [g]. *)
Definition reachable (E : env) (g : gmap Z (list Z)) (st : state) : Prop :=
  exists evs, st = run E (initial g) evs.


(** The role of a backend call. *)
Definition call_role (c : backend_call) : Z :=
  match c with
  | add_roles _ r => r
  | remove_roles _ r => r
  end.

(** Every role timer in the loop, and every removal asked of Discord, is
    for a role the bot asked Discord to add to that member before. *)
Definition removals_paired (st : state) : Prop :=
  (forall h u r d,
      coro <$> tasks st !! h = Some (remove_role_after_timeout u r d) ->
      add_roles u r ∈ backend_calls st)
  /\ (forall j u r, backend_calls st !! j = Some (remove_roles u r) ->
                    exists i, (i < j)%nat
                              /\ backend_calls st !! i = Some (add_roles u r)).

(** Every call made to Discord is about one of the two plan roles. *)
Definition calls_on_plan_roles (E : env) (st : state) : Prop :=
  forall c, c ∈ backend_calls st ->
            call_role c = ESSENTIAL_ROLE_ID E \/ call_role c = PRIME_ROLE_ID E.

(** User [v] has in [s] the permission, the handle and the roles they have
    in [st]. *)
Definition same_for (v : Z) (st s : state) : Prop :=
  (v ∈ permitted_users s <-> v ∈ permitted_users st)
  /\ user_timeouts s !! v = user_timeouts st !! v
  /\ roles s v = roles st v.

(** * Properties *)

(** A closed decidable proposition, settled by evaluating its decision. *)
Ltac by_compute :=
  match goal with
  | |- ?P => apply (bool_decide_eq_true_1 P); vm_compute; reflexivity
  end.

(** ** Strings and [int] *)

Section StringFacts.

Import PyStr.

Lemma endswith_snoc (s : string) (c x : ascii) :
  endswith (s ++ String c EmptyString)%string x = Ascii.eqb c x.
Proof.
  induction s as [|a r IH]; [reflexivity|].
  simpl. rewrite IH. destruct r; reflexivity.
Qed.

Lemma drop_last_snoc (s : string) (c : ascii) :
  drop_last (s ++ String c EmptyString)%string = s.
Proof.
  induction s as [|a r IH]; [reflexivity|].
  simpl. rewrite IH. destruct r; reflexivity.
Qed.



(** The digit loop on a printed numeral. *)
Lemma scan_digits_pos (d : Decimal.uint) (prev : ascii) (acc : positive) :
  is_underscore prev = false ->
  scan_digits prev (Z.pos acc) (NilEmpty.string_of_uint d)
  = Some (Z.pos (Pos.of_uint_acc d acc), EmptyString).
Proof.
  revert prev acc.
  induction d as [|d IH|d IH|d IH|d IH|d IH|d IH|d IH|d IH|d IH|d IH];
    intros prev acc Hp; cbn [NilEmpty.string_of_uint scan_digits Pos.of_uint_acc];
    [ rewrite Hp; reflexivity | ..];
    match goal with
    | |- context [is_digit ?c] =>
        change (is_digit c) with true; cbv iota;
        let v := eval vm_compute in (digit_value c) in
        change (digit_value c) with v
    end;
    match goal with
    | |- scan_digits ?c ?a _ = Some (Z.pos (Pos.of_uint_acc _ ?b), _) =>
        replace a with (Z.pos b) by lia
    end; apply IH; reflexivity.
Qed.

Lemma scan_digits_zero (d : Decimal.uint) (prev : ascii) :
  is_underscore prev = false ->
  scan_digits prev 0 (NilEmpty.string_of_uint d)
  = Some (Z.of_N (Pos.of_uint d), EmptyString).
Proof.
  revert prev.
  induction d as [|d IH|d IH|d IH|d IH|d IH|d IH|d IH|d IH|d IH|d IH];
    intros prev Hp; cbn [NilEmpty.string_of_uint scan_digits Pos.of_uint];
    [ rewrite Hp; reflexivity | apply IH; reflexivity | ..];
    match goal with
    | |- context [is_digit ?c] =>
        change (is_digit c) with true; cbv iota;
        let v := eval vm_compute in (digit_value c) in
        change (digit_value c) with v
    end; cbn [Z.mul Z.add Z.of_N];
    apply scan_digits_pos; reflexivity.
Qed.

Lemma numeral_head (d : Decimal.uint) :
  d <> Decimal.Nil ->
  exists c r, NilEmpty.string_of_uint d = String c r /\ is_digit c = true.
Proof.
  destruct d; intros Hd; try contradiction; eexists _, _; split;
    try reflexivity; reflexivity.
Qed.

Lemma string_of_N_head (n : N) :
  exists c r, string_of_N n = String c r /\ is_digit c = true.
Proof.
  apply numeral_head. destruct n as [|p]; [discriminate|].
  apply DecimalPos.Unsigned.to_uint_nonnil.
Qed.

Lemma digit_not_space (c : ascii) : is_digit c = true -> is_space c = false.
Proof. destruct c as [[] [] [] [] [] [] [] []]; try discriminate; reflexivity. Qed.

Lemma digit_lower (c : ascii) : is_digit c = true -> lower_char c = c.
Proof. destruct c as [[] [] [] [] [] [] [] []]; try discriminate; reflexivity. Qed.

Lemma digit_neq (c x : ascii) :
  is_digit c = true -> is_digit x = false -> Ascii.eqb c x = false.
Proof.
  intros Hc Hx. destruct (Ascii.eqb_spec c x) as [->|]; [congruence|reflexivity].
Qed.

(** A text that starts with a digit is none of the two words for an
    unbounded duration. *)
Lemma digit_head_not_inf (c : ascii) (r : string) :
  is_digit c = true ->
  String.eqb (lower (String c r)) "inf"
  || String.eqb (lower (String c r)) "infinite" = false.
Proof.
  intros Hc. cbn [lower]. rewrite (digit_lower c Hc).
  cbn [String.eqb]. rewrite (digit_neq c "i" Hc eq_refl). reflexivity.
Qed.


Lemma digit_run_numeral (d : Decimal.uint) :
  digit_run (NilEmpty.string_of_uint d)
  = Z.of_nat (String.length (NilEmpty.string_of_uint d)).
Proof.
  induction d as [|d IH|d IH|d IH|d IH|d IH|d IH|d IH|d IH|d IH|d IH];
    cbn [NilEmpty.string_of_uint digit_run String.length];
    [reflexivity|..];
    match goal with
    | |- context [is_digit ?c] => change (is_digit c) with true; cbv iota
    end; rewrite IH; lia.
Qed.

Lemma int_unsigned_numeral (d : Decimal.uint) :
  d <> Decimal.Nil ->
  (String.length (NilEmpty.string_of_uint d) <= 4300)%nat ->
  int_unsigned (NilEmpty.string_of_uint d) = Some (Z.of_N (Pos.of_uint d)).
Proof.
  intros Hd Hlen.
  assert (Hrun : (int_max_str_digits <? digit_run (NilEmpty.string_of_uint d))
                 = false).
  { rewrite digit_run_numeral. apply Z.ltb_ge. unfold int_max_str_digits. lia. }
  revert Hrun. clear Hlen. revert Hd.
  destruct d; intros Hd Hrun; try contradiction;
    unfold int_unsigned; rewrite Hrun;
    cbn [NilEmpty.string_of_uint scan_digits];
    match goal with
    | |- context [is_digit ?c] =>
        change (is_digit c) with true; cbv iota;
        let v := eval vm_compute in (10 * 0 + digit_value c) in
        change (10 * 0 + digit_value c) with v
    end;
    first [ rewrite scan_digits_zero by reflexivity
          | rewrite scan_digits_pos by reflexivity ];
    reflexivity.
Qed.

Lemma int_unsigned_string_of_N (n : N) :
  (String.length (string_of_N n) <= 4300)%nat ->
  int_unsigned (string_of_N n) = Some (Z.of_N n).
Proof.
  intros Hlen. unfold string_of_N in *. rewrite int_unsigned_numeral.
  - change (Pos.of_uint (N.to_uint n)) with (N.of_uint (N.to_uint n)).
    now rewrite DecimalN.Unsigned.of_to.
  - destruct n as [|p]; [discriminate|].
    apply DecimalPos.Unsigned.to_uint_nonnil.
  - exact Hlen.
Qed.


Lemma int_minus_string_of_N (n : N) :
  (String.length (string_of_N n) <= 4300)%nat ->
  int (String "-" (string_of_N n)) = Some (- Z.of_N n).
Proof.
  intros Hlen. unfold int. cbn [skip_space].
  change (is_space "-") with false. cbv iota.
  rewrite int_unsigned_string_of_N by exact Hlen. reflexivity.
Qed.

Lemma endswith_numeral (d : Decimal.uint) (x : ascii) :
  is_digit x = false -> endswith (NilEmpty.string_of_uint d) x = false.
Proof.
  intros Hx.
  induction d as [|d IH|d IH|d IH|d IH|d IH|d IH|d IH|d IH|d IH|d IH];
    cbn [NilEmpty.string_of_uint endswith]; [reflexivity|..];
    (destruct (NilEmpty.string_of_uint d);
     [apply digit_neq; [reflexivity|exact Hx] | exact IH]).
Qed.

(** [int] reads nothing but digits, blanks, underscores and signs. *)
Lemma skip_space_alphabet (s : string) :
  all_chars int_alphabet (skip_space s) = true -> all_chars int_alphabet s = true.
Proof.
  induction s as [|c r IH]; [reflexivity|]. cbn [skip_space].
  destruct (is_space c) eqn:Hc; [|exact id].
  intros H. cbn [all_chars]. rewrite (IH H). unfold int_alphabet. rewrite Hc.
  now rewrite orb_true_r.
Qed.

Lemma scan_digits_alphabet (s : string) :
  forall prev acc n rest,
    scan_digits prev acc s = Some (n, rest) ->
    all_chars int_alphabet rest = true -> all_chars int_alphabet s = true.
Proof.
  induction s as [|c r IH]; intros prev acc n rest; cbn [scan_digits].
  - destruct (is_underscore prev); [discriminate|].
    intros [= <- <-]. exact id.
  - destruct (is_digit c) eqn:Hd.
    + intros Hs Hr. cbn [all_chars]. rewrite (IH _ _ _ _ Hs Hr).
      unfold int_alphabet. now rewrite Hd.
    + destruct (is_underscore c) eqn:Hu.
      * destruct (is_underscore prev); [discriminate|].
        intros Hs Hr. cbn [all_chars]. rewrite (IH _ _ _ _ Hs Hr).
        unfold int_alphabet. rewrite Hu. now rewrite !orb_true_r.
      * destruct (is_underscore prev); [discriminate|].
        intros [= <- <-]. exact id.
Qed.

Lemma underscore_guard {A : Type} (s : string) (X : option A) :
  (forall r, s <> String "_" r) ->
  match s with
  | String "_" _ => None
  | _ => X
  end = X.
Proof.
  intros Hs. destruct s as [|c r]; [reflexivity|].
  destruct c as [[] [] [] [] [] [] [] []]; try reflexivity.
  now destruct (Hs r).
Qed.

Lemma underscore_guard_inv {A : Type} (s : string) (X : option A) (v : A) :
  match s with
  | String "_" _ => None
  | _ => X
  end = Some v ->
  X = Some v /\ forall r, s <> String "_" r.
Proof.
  destruct s as [|c r]; [intros H; split; [exact H|discriminate]|].
  destruct c as [[] [] [] [] [] [] [] []]; intros H;
    try discriminate H; (split; [exact H|discriminate]).
Qed.

(** What a successful conversion after the sign went through. *)
Lemma int_unsigned_inv (s : string) (n : Z) :
  int_unsigned s = Some n ->
  exists rest,
    scan_digits zero 0 s = Some (n, rest)
    /\ String.length rest <> String.length s
    /\ digit_run s <= int_max_str_digits
    /\ skip_space rest = EmptyString
    /\ forall r, s <> String "_" r.
Proof.
  unfold int_unsigned. intros H.
  apply underscore_guard_inv in H as [H Hus].
  destruct (scan_digits zero 0 s) as [[m rest]|]; [|discriminate].
  destruct (String.length rest =? String.length s)%nat eqn:Hlen;
    [discriminate|].
  destruct (int_max_str_digits <? digit_run s) eqn:Hrun; [discriminate|].
  destruct (skip_space rest) eqn:Hk; [|discriminate].
  injection H as <-. exists rest.
  apply Nat.eqb_neq in Hlen. apply Z.ltb_ge in Hrun. now repeat split.
Qed.

Lemma int_unsigned_alphabet (s : string) (n : Z) :
  int_unsigned s = Some n -> all_chars int_alphabet s = true.
Proof.
  intros H. destruct (int_unsigned_inv s n H) as (rest & Hs & _ & _ & Hk & _).
  apply (scan_digits_alphabet _ _ _ _ _ Hs).
  apply skip_space_alphabet. now rewrite Hk.
Qed.

Lemma int_alphabet_sound (s : string) (n : Z) :
  int s = Some n -> all_chars int_alphabet s = true.
Proof.
  unfold int. intros H. apply skip_space_alphabet.
  destruct (skip_space s) as [|c r]; [reflexivity|].
  assert (Hcases : (c = "+"%char /\ int_unsigned r <> None)
                   \/ (c = "-"%char /\ int_unsigned r <> None)
                   \/ int_unsigned (String c r) = Some n).
  { destruct c as [[] [] [] [] [] [] [] []]; auto;
      [left | right; left]; (split; [reflexivity|]);
      destruct (int_unsigned r); discriminate. }
  destruct Hcases as [[-> Hr]|[[-> Hr]|Hr]].
  - destruct (int_unsigned r) as [m|] eqn:Hm; [|contradiction].
    cbn [all_chars]. now rewrite (int_unsigned_alphabet r m Hm).
  - destruct (int_unsigned r) as [m|] eqn:Hm; [|contradiction].
    cbn [all_chars]. now rewrite (int_unsigned_alphabet r m Hm).
  - exact (int_unsigned_alphabet _ _ Hr).
Qed.

(** *** The literals [int] accepts *)

Lemma app_cons (c : ascii) (s t : string) :
  (String c s ++ t)%string = String c (s ++ t)%string.
Proof. reflexivity. Qed.

Lemma app_empty_l (t : string) : (EmptyString ++ t)%string = t.
Proof. reflexivity. Qed.

Lemma app_empty_r (s : string) : (s ++ EmptyString)%string = s.
Proof.
  induction s as [|c s IH]; [reflexivity|]. now rewrite app_cons, IH.
Qed.

Lemma length_app_string (s t : string) :
  String.length (s ++ t)%string = (String.length s + String.length t)%nat.
Proof.
  induction s as [|c s IH]; [reflexivity|].
  rewrite app_cons. cbn [String.length]. now rewrite IH.
Qed.

Lemma digit_not_underscore (c : ascii) :
  is_digit c = true -> is_underscore c = false.
Proof. destruct c as [[] [] [] [] [] [] [] []]; try discriminate; reflexivity. Qed.

Lemma space_not_digit (c : ascii) : is_space c = true -> is_digit c = false.
Proof. destruct c as [[] [] [] [] [] [] [] []]; try discriminate; reflexivity. Qed.

Lemma space_not_underscore (c : ascii) :
  is_space c = true -> is_underscore c = false.
Proof. destruct c as [[] [] [] [] [] [] [] []]; try discriminate; reflexivity. Qed.

Lemma skip_space_split (s : string) :
  exists l, s = (l ++ skip_space s)%string /\ all_chars is_space l = true.
Proof.
  induction s as [|c r (l & Hl & Hb)]; [now exists EmptyString|].
  cbn [skip_space]. destruct (is_space c) eqn:Hc.
  - exists (String c l). rewrite app_cons, <- Hl. cbn [all_chars].
    now rewrite Hc, Hb.
  - now exists EmptyString.
Qed.

Lemma skip_space_app (l s : string) :
  all_chars is_space l = true -> skip_space (l ++ s)%string = skip_space s.
Proof.
  induction l as [|c l IH]; [reflexivity|]. cbn [all_chars].
  intros [Hc Hl]%andb_true_iff. rewrite app_cons. cbn [skip_space].
  rewrite Hc. now apply IH.
Qed.

Lemma skip_space_blank (r : string) :
  skip_space r = EmptyString <-> all_chars is_space r = true.
Proof.
  induction r as [|c r IH]; [now split|]. cbn [skip_space all_chars].
  destruct (is_space c); cbn [andb]; [exact IH|]. split; discriminate.
Qed.

Lemma skip_space_head (c : ascii) (r : string) :
  is_space c = false -> skip_space (String c r) = String c r.
Proof. intros Hc. cbn [skip_space]. now rewrite Hc. Qed.

(** The digit loop stops in front of blanks. *)
Lemma scan_digits_stop (prev : ascii) (acc : Z) (r : string) :
  is_underscore prev = false -> all_chars is_space r = true ->
  scan_digits prev acc r = Some (acc, r).
Proof.
  intros Hp Hr. destruct r as [|c r]; cbn [scan_digits]; [now rewrite Hp|].
  cbn [all_chars] in Hr. apply andb_true_iff in Hr as [Hc _].
  now rewrite (space_not_digit c Hc), (space_not_underscore c Hc), Hp.
Qed.

Lemma scan_digits_complete (t r : string) :
  groups_tail t -> all_chars is_space r = true ->
  forall prev acc, is_underscore prev = false ->
                   exists n, scan_digits prev acc (t ++ r)%string = Some (n, r).
Proof.
  intros Ht Hr. induction Ht as [|c t Hc Ht IH|c t Hc Ht IH];
    intros prev acc Hp.
  - exists acc. rewrite app_empty_l. now apply scan_digits_stop.
  - rewrite app_cons. cbn [scan_digits]. rewrite Hc.
    apply IH. now apply digit_not_underscore.
  - rewrite !app_cons. cbn [scan_digits].
    change (is_digit "_") with false. change (is_underscore "_") with true.
    cbv iota. rewrite Hp, Hc. apply IH. now apply digit_not_underscore.
Qed.

Lemma scan_digits_sound (s : string) :
  forall prev acc n rest,
    scan_digits prev acc s = Some (n, rest) ->
    if is_underscore prev
    then exists c t, is_digit c = true /\ groups_tail t
                     /\ s = String c (t ++ rest)%string
    else exists t, groups_tail t /\ s = (t ++ rest)%string.
Proof.
  induction s as [|c r IH]; intros prev acc n rest; cbn [scan_digits].
  - destruct (is_underscore prev); [discriminate|].
    intros [= <- <-]. exists EmptyString. split; [constructor|reflexivity].
  - destruct (is_digit c) eqn:Hd.
    + intros Hs. specialize (IH _ _ _ _ Hs).
      rewrite (digit_not_underscore c Hd) in IH. destruct IH as (t & Ht & ->).
      destruct (is_underscore prev).
      * now exists c, t.
      * exists (String c t). split; [now constructor|reflexivity].
    + destruct (is_underscore c) eqn:Hu.
      * destruct (is_underscore prev); [discriminate|].
        intros Hs. specialize (IH _ _ _ _ Hs). rewrite Hu in IH.
        destruct IH as (c' & t & Hc' & Ht & ->).
        apply Ascii.eqb_eq in Hu. subst c.
        exists (String "_" (String c' t)). split; [now constructor|reflexivity].
      * destruct (is_underscore prev); [discriminate|].
        intros [= <- <-]. exists EmptyString. split; [constructor|reflexivity].
Qed.

Lemma digit_run_blank (r : string) :
  all_chars is_space r = true -> digit_run r = 0.
Proof.
  destruct r as [|c r]; [reflexivity|]. cbn [all_chars digit_run].
  intros [Hc _]%andb_true_iff.
  now rewrite (space_not_digit c Hc), (space_not_underscore c Hc).
Qed.

Lemma digit_run_groups (t r : string) :
  groups_tail t -> all_chars is_space r = true ->
  digit_run (t ++ r)%string = count_digits t.
Proof.
  intros Ht Hr. induction Ht as [|c t Hc Ht IH|c t Hc Ht IH].
  - rewrite app_empty_l. now apply digit_run_blank.
  - rewrite app_cons. cbn [digit_run count_digits]. now rewrite Hc, IH.
  - rewrite !app_cons. cbn [digit_run count_digits].
    change (is_digit "_") with false. change (is_underscore "_") with true.
    cbv iota. now rewrite Hc, IH.
Qed.

(** The conversion after the sign succeeds exactly on a digit, its tail and
    blanks, with no more digits than the limit. *)
Lemma int_unsigned_accepts (s : string) :
  int_unsigned s <> None <->
  exists c t r, s = (String c t ++ r)%string /\ is_digit c = true
                /\ groups_tail t /\ count_digits (String c t) <= 4300
                /\ all_chars is_space r = true.
Proof.
  split.
  - destruct (int_unsigned s) as [n|] eqn:Hn; [intros _|contradiction].
    destruct (int_unsigned_inv s n Hn) as (rest & Hs & Hlen & Hrun & Hk & Hus).
    apply skip_space_blank in Hk.
    pose proof (scan_digits_sound s _ _ _ _ Hs) as Hsound.
    change (is_underscore zero) with false in Hsound. cbv iota in Hsound.
    destruct Hsound as (t0 & Ht0 & ->).
    destruct Ht0 as [|c t Hc Ht|c t Hc Ht].
    + rewrite app_empty_l in Hlen. contradiction.
    + exists c, t, rest. repeat split; try assumption.
      rewrite <- (digit_run_groups (String c t) rest) by (try constructor; assumption).
      exact Hrun.
    + now destruct (Hus (String c t ++ rest)%string).
  - intros (c & t & r & -> & Hc & Ht & Hcount & Hr).
    unfold int_unsigned. rewrite underscore_guard.
    + destruct (scan_digits_complete (String c t) r) with (prev := zero) (acc := 0)
        as [n Hn]; [now constructor|exact Hr|reflexivity|].
      rewrite Hn.
      assert (Hlen : (String.length r =? String.length (String c t ++ r))%nat
                     = false).
      { apply Nat.eqb_neq. rewrite length_app_string. cbn. lia. }
      rewrite Hlen.
      rewrite (digit_run_groups (String c t) r) by (try constructor; assumption).
      assert (Hrun : (int_max_str_digits <? count_digits (String c t)) = false)
        by (apply Z.ltb_ge; exact Hcount).
      rewrite Hrun. apply skip_space_blank in Hr. now rewrite Hr.
    + intros r0. rewrite app_cons. intros [= -> _]. discriminate.
Qed.

Lemma int_sign_cases (s : string) :
  int s <> None ->
  exists l x,
    s = (l ++ x)%string /\ all_chars is_space l = true
    /\ ((exists y, x = String "+" y /\ int_unsigned y <> None)
        \/ (exists y, x = String "-" y /\ int_unsigned y <> None)
        \/ int_unsigned x <> None).
Proof.
  unfold int. intros H. destruct (skip_space_split s) as (l & Hl & Hb).
  exists l, (skip_space s). split; [exact Hl|]. split; [exact Hb|].
  destruct (skip_space s) as [|c r]; [now right; right|].
  destruct c as [[] [] [] [] [] [] [] []];
    try (now right; right);
    [left | right; left]; exists r; (split; [reflexivity|]);
    destruct (int_unsigned r); [discriminate|contradiction| discriminate|contradiction].
Qed.

(** [int] accepts the integer literals and nothing else. *)
Lemma int_accepts (s : string) : int s <> None <-> int_literal s.
Proof.
  split.
  - intros H. destruct (int_sign_cases s H) as (l & x & -> & Hl & Hx).
    destruct Hx as [(y & -> & Hy)|[(y & -> & Hy)|Hx]].
    + apply int_unsigned_accepts in Hy as (c & t & r & -> & Hc & Ht & Hn & Hr).
      exact (int_lit l (String "+" EmptyString) c t r Hl
               (or_intror (or_introl eq_refl)) Hc Ht Hn Hr).
    + apply int_unsigned_accepts in Hy as (c & t & r & -> & Hc & Ht & Hn & Hr).
      exact (int_lit l (String "-" EmptyString) c t r Hl
               (or_intror (or_intror eq_refl)) Hc Ht Hn Hr).
    + apply int_unsigned_accepts in Hx as (c & t & r & -> & Hc & Ht & Hn & Hr).
      exact (int_lit l EmptyString c t r Hl (or_introl eq_refl) Hc Ht Hn Hr).
  - intros [l sign c t r Hl Hsign Hc Ht Hn Hr].
    assert (Hu : int_unsigned (String c t ++ r)%string <> None)
      by (apply int_unsigned_accepts; now exists c, t, r).
    unfold int. rewrite skip_space_app by exact Hl.
    destruct Hsign as [-> | [-> | ->]].
    + rewrite app_empty_l, app_cons.
      rewrite skip_space_head by now apply digit_not_space.
      rewrite app_cons in Hu. clear Hn Ht.
      destruct c as [[] [] [] [] [] [] [] []]; try discriminate Hc; exact Hu.
    + rewrite app_cons, app_empty_l. rewrite skip_space_head by reflexivity.
      exact Hu.
    + rewrite app_cons, app_empty_l. rewrite skip_space_head by reflexivity.
      destruct (int_unsigned _); [discriminate|contradiction].
Qed.

End StringFacts.

(** ** [parse_duration] *)

Section ParseDuration.

Import PyStr.

Local Open Scope string_scope.

Lemma parse_duration_unit (s : string) (v : Z) :
  int s = Some v ->
  (not_inf (s ++ "m") -> parse_duration (s ++ "m") = Some (Seconds (v * 60)))
  /\ (not_inf (s ++ "h") -> parse_duration (s ++ "h") = Some (Seconds (v * 3600)))
  /\ (not_inf (s ++ "d") -> parse_duration (s ++ "d") = Some (Seconds (v * 86400))).
Proof.
  intros Hv. unfold not_inf, parse_duration.
  repeat split; intros ->; rewrite !endswith_snoc, drop_last_snoc, Hv;
    reflexivity.
Qed.

Lemma digit_head_not_inf_app (n : N) (u : string) :
  not_inf (string_of_N n ++ u).
Proof.
  destruct (string_of_N_head n) as (c & r & -> & Hc).
  apply (digit_head_not_inf c (r ++ u) Hc).
Qed.

Lemma minus_head_not_inf (s : string) : not_inf (String "-" s).
Proof. reflexivity. Qed.


Lemma parse_duration_minus_numeral (n : N) :
  (String.length (string_of_N n) <= 4300)%nat ->
  parse_duration ("-" ++ string_of_N n) = Some (Seconds (- Z.of_N n * 60)).
Proof.
  intros Hlen. unfold parse_duration.
  change ("-" ++ string_of_N n) with (String "-" (string_of_N n)).
  rewrite minus_head_not_inf.
  assert (He : forall x, is_digit x = false ->
                         endswith (String "-" (string_of_N n)) x = false).
  { intros x Hx. destruct (string_of_N_head n) as (c & r & Hs & Hc).
    cbn [endswith]. rewrite Hs, <- Hs. unfold string_of_N.
    now apply endswith_numeral. }
  rewrite !He by reflexivity. now rewrite int_minus_string_of_N.
Qed.

(** [parse_duration] returns [None] exactly when the text is none of the
    two words and [int] refuses its numeric part. *)
Lemma parse_duration_None_iff (s : string) :
  parse_duration s = None <-> not_inf s /\ int (numeric_part s) = None.
Proof.
  unfold parse_duration, not_inf, numeric_part.
  destruct (_ || _); [split; [discriminate|intros [? _]; discriminate]|].
  destruct (endswith s "m"); cbn [orb];
    [destruct (int _); split; try discriminate; try (intros [_ ?]; discriminate);
     now split|].
  destruct (endswith s "h"); cbn [orb];
    [destruct (int _); split; try discriminate; try (intros [_ ?]; discriminate);
     now split|].
  destruct (endswith s "d"); cbn [orb];
    destruct (int _); split; try discriminate; try (intros [_ ?]; discriminate);
    now split.
Qed.

End ParseDuration.



(** C4, as the code has it.  [parse_duration] returns [None] exactly for
    the texts that are no spelling of [inf] or [infinite] and whose numeric
    part is no integer literal (blanks, an optional sign, digits with single
    underscores allowed between them, at most 4300 of them, blanks): so for
    the empty text, for a text with a non-numeric prefix, for a unit alone,
    a sign alone, two signs, a leading underscore, two numerals.  A negative
    number is not among them: ["-5m"] is -300 seconds, and the numeral of
    [n], of at most 4300 digits, after a minus sign is [-n] minutes, with a
    unit [-n] minutes, hours or days. *)
Theorem parse_duration_errors :
  parse_duration "" = None
  /\ parse_duration "abc" = None
  /\ parse_duration "abc5m" = None
  /\ parse_duration "m" = None
  /\ parse_duration "-" = None
  /\ parse_duration "--5" = None
  /\ parse_duration "_5" = None
  /\ parse_duration "5 5" = None
  /\ (forall s,
        parse_duration s = None <->
        not_inf s /\ ~ int_literal (numeric_part s))
  /\ parse_duration "-5m" = Some (Seconds (-300))
  /\ (forall n : N,
        (String.length (string_of_N n) <= 4300)%nat ->
        parse_duration ("-" ++ string_of_N n) = Some (Seconds (- Z.of_N n * 60))
        /\ parse_duration ("-" ++ string_of_N n ++ "m")
           = Some (Seconds (- Z.of_N n * 60))
        /\ parse_duration ("-" ++ string_of_N n ++ "h")
           = Some (Seconds (- Z.of_N n * 3600))
        /\ parse_duration ("-" ++ string_of_N n ++ "d")
           = Some (Seconds (- Z.of_N n * 86400))).
Proof.
  repeat (split; [reflexivity|]).
  split; [|split; [reflexivity|]].
  - intros s. rewrite parse_duration_None_iff.
    assert (Hint : PyStr.int (numeric_part s) = None
                   <-> ~ int_literal (numeric_part s)).
    { rewrite <- int_accepts.
      destruct (PyStr.int (numeric_part s)); split; try discriminate;
        try reflexivity; intros H; [destruct H; discriminate|].
      intros H'. now apply H'. }
    now rewrite Hint.
  - intros n Hlen. split; [now apply parse_duration_minus_numeral|].
    destruct (parse_duration_unit (String "-" (string_of_N n)) (- Z.of_N n)
                (int_minus_string_of_N n Hlen)) as (Hm & Hh & Hd).
    repeat split; [apply Hm | apply Hh | apply Hd]; apply minus_head_not_inf.
Qed.

(** C4 as stated fails: the text ["-5m"] denotes a negative number and
    [parse_duration] returns a duration for it, not an error. *)
Lemma parse_duration_negative_not_rejected :
  parse_duration "-5m" <> None /\ parse_duration "-5m" = Some (Seconds (-300)).
Proof. split; [discriminate|reflexivity]. Qed.

(** ** The event loop *)

Section LoopFacts.

Variable E : env.

Lemma tasks_forget_timeout (u : Z) (st : state) :
  tasks (forget_timeout u st) = tasks st.
Proof. unfold forget_timeout. now destruct (user_timeouts st !! u). Qed.


Lemma forget_timeout_lookup_ne (u v : Z) (st : state) :
  u ≠ v -> user_timeouts (forget_timeout u st) !! v = user_timeouts st !! v.
Proof.
  intros Huv. unfold forget_timeout.
  destruct (user_timeouts st !! u); [|reflexivity].
  cbn. now apply lookup_delete_ne.
Qed.

Lemma tasks_resume (c : coroutine) (st : state) :
  tasks (resume E c st) = tasks st.
Proof.
  destruct c as [u r d|u d]; cbn [resume]; rewrite tasks_forget_timeout;
    [destruct (discord E _ _)|]; reflexivity.
Qed.


Lemma wake_idle (h : nat) (st : state) :
  status_of h st ≠ Some Pending -> wake E h st = st.
Proof.
  unfold status_of, wake. destruct (tasks st !! h) as [t|]; [|reflexivity].
  cbn. destruct (status t); [congruence|reflexivity..].
Qed.

Lemma tasks_wake_ne (h h' : nat) (st : state) :
  h ≠ h' -> tasks (wake E h st) !! h' = tasks st !! h'.
Proof.
  intros Hne. unfold wake. destruct (tasks st !! h) as [t|]; [|reflexivity].
  destruct (status t); [|reflexivity..].
  cbn. rewrite list_lookup_alter_ne by exact Hne. now rewrite tasks_resume.
Qed.

Lemma coro_wake (h h' : nat) (st : state) :
  coro <$> tasks (wake E h st) !! h' = coro <$> tasks st !! h'.
Proof.
  destruct (decide (h = h')) as [<-|Hne]; [|now rewrite tasks_wake_ne].
  unfold wake. destruct (tasks st !! h) as [t|] eqn:Ht; [|now rewrite Ht].
  destruct (status t); [|now rewrite Ht..].
  cbn. rewrite list_lookup_alter_eq, tasks_resume, Ht. reflexivity.
Qed.

Lemma status_of_wake_ne (h h' : nat) (st : state) :
  h ≠ h' -> status_of h' (wake E h st) = status_of h' st.
Proof. intros Hne. unfold status_of. now rewrite tasks_wake_ne. Qed.




Lemma tasks_start_tasks (h : nat) (st : state) :
  tasks (start_tasks st) !! h = start_sleep <$> tasks st !! h.
Proof. unfold start_tasks. cbn [tasks set_tasks]. apply list_lookup_fmap. Qed.

Lemma start_sleep_task (t : task) :
  coro (start_sleep t) = coro t /\ wake_at (start_sleep t) = wake_at t
  /\ (status t ≠ Pending -> status (start_sleep t) = status t).
Proof.
  unfold start_sleep. destruct (status t) eqn:Hs;
    [destruct (sleep_overflows _)|..]; cbn; repeat split; congruence.
Qed.


(** A task that still sleeps after its first run is the task it was. *)
Lemma start_tasks_pending (h : nat) (st : state) (t : task) :
  tasks (start_tasks st) !! h = Some t -> status t = Pending ->
  tasks st !! h = Some t
  /\ sleep_overflows (coro_duration (coro t)) = false.
Proof.
  rewrite tasks_start_tasks. destruct (tasks st !! h) as [t0|]; [|discriminate].
  cbn. intros [= <-]. unfold start_sleep.
  destruct (status t0) eqn:Hs0;
    [destruct (sleep_overflows _) eqn:Ho; [discriminate|now split]|..];
    intros Hs; congruence.
Qed.





(** The handlers only ever add tasks to the loop; [unpermit] adds none. *)
Lemma tasks_permit (st : state) (author user : Z) (duration : string) :
  exists new, tasks (fst (permit E st author user duration)) = tasks st ++ new.
Proof.
  unfold permit. destruct (negb (is_admin E st author)); [exists []; cbn; now rewrite app_nil_r|].
  destruct (parse_duration duration) as [[|d]|];
    [exists [] | eexists [_] | exists []]; cbn; now rewrite ?app_nil_r.
Qed.

Lemma tasks_whitelist (st : state) (author user : Z) (duration plan : string) :
  exists new,
    tasks (fst (whitelist E st author user duration plan)) = tasks st ++ new.
Proof.
  unfold whitelist.
  destruct (negb (is_admin E st author)); [exists []; cbn; now rewrite app_nil_r|].
  destruct (negb _); [exists []; cbn; now rewrite app_nil_r|].
  destruct (parse_duration duration) as [dur|]; [|exists []; cbn; now rewrite app_nil_r].
  destruct (negb (get_role E _)); [exists []; cbn; now rewrite app_nil_r|].
  destruct (discord E _ _);
    [destruct dur as [|d]; [exists [] | eexists [_]];
     cbn [create_task]; unfold send_in_try; destruct (ctx_send E _)
    | exists [] ..]; cbn; now rewrite ?app_nil_r.
Qed.



End LoopFacts.

(** ** Timers that are due, and timers of other users *)

Section DueFacts.

Variable E : env.

Lemma elem_of_insert_due (x y : Z * nat) (l : list (Z * nat)) :
  y ∈ insert_due x l -> y = x \/ y ∈ l.
Proof.
  induction l as [|z l IH]; cbn [insert_due].
  - intros ->%list_elem_of_singleton. now left.
  - destruct (fst x <=? fst z).
    + intros [->|Hy]%elem_of_cons; [now left|now right].
    + intros [->|Hy]%elem_of_cons; [right; left|].
      destruct (IH Hy) as [->|Hl]; [now left|right; now right].
Qed.

Lemma due_from_spec (target : Z) (ts : list task) :
  forall (k : nat) (w : Z) (h : nat),
    (w, h) ∈ due_from k target ts ->
    exists t, (k <= h)%nat /\ ts !! (h - k)%nat = Some t
              /\ status t = Pending /\ wake_at t <= target.
Proof.
  induction ts as [|t ts IH]; intros k w h; cbn [due_from].
  - intros Hin. now apply not_elem_of_nil in Hin.
  - assert (Hrest : (w, h) ∈ due_from (S k) target ts ->
                    exists t0, (k <= h)%nat
                               /\ (t :: ts) !! (h - k)%nat = Some t0
                               /\ status t0 = Pending /\ wake_at t0 <= target).
    { intros Hin. destruct (IH _ _ _ Hin) as (t0 & Hk & Ht0 & Hs & Hw).
      exists t0. split; [lia|]. split; [|now split].
      replace (h - k)%nat with (S (h - S k)) by lia. exact Ht0. }
    destruct (status t) eqn:Hst; try exact Hrest.
    destruct (wake_at t <=? target) eqn:Hw; [|exact Hrest].
    intros [Heq|Hin]%elem_of_insert_due; [|now apply Hrest].
    injection Heq as -> ->. exists t. split; [lia|].
    rewrite Nat.sub_diag. split; [reflexivity|]. split; [exact Hst|lia].
Qed.

Lemma due_spec (target : Z) (st : state) (h : nat) :
  h ∈ due target st ->
  exists t, tasks st !! h = Some t /\ status t = Pending /\ wake_at t <= target.
Proof.
  unfold due. intros ([w h'] & -> & Hin)%list_elem_of_fmap.
  destruct (due_from_spec _ _ _ _ _ Hin) as (t & _ & Ht & Hs & Hw).
  rewrite Nat.sub_0_r in Ht. now exists t.
Qed.

Lemma no_timer_due_for_spec (user target : Z) (st : state) (h : nat) (t : task) :
  no_timer_due_for user target st = true ->
  tasks st !! h = Some t -> status t = Pending -> wake_at t <= target ->
  coro_user (coro t) ≠ user.
Proof.
  unfold no_timer_due_for. rewrite forallb_forall. intros Hall Ht Hs Hw.
  assert (Hin : In t (tasks st)).
  { apply list_elem_of_In. apply list_elem_of_lookup. now exists h. }
  specialize (Hall t Hin). rewrite Hs in Hall.
  apply negb_true_iff, andb_false_iff in Hall as [Hu|Hd].
  - now apply Z.eqb_neq in Hu.
  - apply Z.leb_gt in Hd. lia.
Qed.

Lemma resume_other_user (c : coroutine) (st : state) (user : Z) :
  coro_user c ≠ user ->
  (user ∈ permitted_users (resume E c st) <-> user ∈ permitted_users st)
  /\ user_timeouts (resume E c st) !! user = user_timeouts st !! user.
Proof.
  intros Hne. destruct c as [u r d|u d]; cbn [resume coro_user] in *.
  - split.
    + unfold forget_timeout.
      destruct (user_timeouts _ !! u); destruct (discord E _ _); reflexivity.
    + rewrite forget_timeout_lookup_ne by exact Hne.
      destruct (discord E _ _); reflexivity.
  - split.
    + unfold forget_timeout. destruct (user_timeouts _ !! u); cbn;
        rewrite elem_of_difference, elem_of_singleton; intuition congruence.
    + now rewrite forget_timeout_lookup_ne by exact Hne.
Qed.

Lemma wake_other_user (h : nat) (st : state) (user : Z) :
  (forall c, coro <$> tasks st !! h = Some c -> coro_user c ≠ user) ->
  (user ∈ permitted_users (wake E h st) <-> user ∈ permitted_users st)
  /\ user_timeouts (wake E h st) !! user = user_timeouts st !! user.
Proof.
  intros Hc. unfold wake. destruct (tasks st !! h) as [t|]; [|now split].
  destruct (status t); [|now split..].
  apply (resume_other_user (coro t) st user). now apply Hc.
Qed.

(** Timers of other users leave a user's permission, the handle on record
    for the user and the task behind another handle as they are. *)
Lemma foldl_wake_other_user (user : Z) (h : nat) (hs : list nat) :
  forall st : state,
    (forall h', h' ∈ hs ->
       h' ≠ h /\ forall c, coro <$> tasks st !! h' = Some c -> coro_user c ≠ user) ->
    let st' := foldl (fun s h' => wake E h' s) st hs in
    (user ∈ permitted_users st' <-> user ∈ permitted_users st)
    /\ user_timeouts st' !! user = user_timeouts st !! user
    /\ status_of h st' = status_of h st.
Proof.
  induction hs as [|h0 hs IH]; intros st Hhs; [now repeat split|].
  cbn [foldl].
  destruct (Hhs h0 ltac:(left)) as [Hne Hc0].
  destruct (wake_other_user h0 st user Hc0) as [Hp Ht].
  destruct (IH (wake E h0 st)) as (Hp' & Ht' & Hs').
  { intros h' Hin. destruct (Hhs h' ltac:(now right)) as [Hne' Hc'].
    split; [exact Hne'|]. intros c. rewrite coro_wake. apply Hc'. }
  cbn zeta in *. rewrite Hp', Ht', Hs', Hp, Ht.
  rewrite (status_of_wake_ne E h0 h st Hne). now repeat split.
Qed.

End DueFacts.

(** ** Authorization and the permission predicate *)

(** C7.  A grant or a revoke requested by a caller who is no admin is
    answered with the access-denied message and changes nothing: the
    permitted set, the timeout map, the tasks of the event loop, the guild
    and the record of backend calls are those of before. *)
Theorem unauthorized_no_side_effects (E : env) (st : state) (author user : Z)
        (duration plan : string) :
  is_admin E st author = false ->
  whitelist E st author user duration plan = (st, AccessDenied)
  /\ permit E st author user duration = (st, AccessDenied)
  /\ unpermit E st author user = (st, AccessDenied).
Proof.
  intros Hadm. unfold whitelist, permit, unpermit. rewrite Hadm. now repeat split.
Qed.

(** C8.  Revoking the permission of a user who is not in the permitted set
    is answered with the not-permitted message and leaves the whole state,
    the record of backend calls included, as it was; a second revoke gives
    the same answer. *)
Theorem unpermit_not_granted (E : env) (st : state) (author user : Z) :
  is_admin E st author = true ->
  user ∉ permitted_users st ->
  unpermit E st author user = (st, NotPermitted)
  /\ unpermit E (fst (unpermit E st author user)) author user
     = (st, NotPermitted).
Proof.
  intros Hadm Hnot.
  assert (H1 : unpermit E st author user = (st, NotPermitted)).
  { unfold unpermit. rewrite Hadm. cbn [negb].
    now rewrite (bool_decide_eq_false_2 _ Hnot). }
  split; [exact H1|]. rewrite H1. exact H1.
Qed.

Lemma member_roles_unpermit (E : env) (st : state) (author user : Z) :
  member_roles (fst (unpermit E st author user)) = member_roles st.
Proof.
  unfold unpermit. destruct (negb (is_admin E st author)); [reflexivity|].
  destruct (bool_decide _); [|reflexivity]. cbn.
  now destruct (user_timeouts st !! user).
Qed.

Lemma existsb_role (r : Z) (l : list Z) :
  existsb (fun role => role =? r) l = true <-> r ∈ l.
Proof.
  rewrite existsb_exists. split.
  - intros (x & Hx & ->%Z.eqb_eq). now apply list_elem_of_In.
  - intros Hr. exists r. split; [now apply list_elem_of_In|apply Z.eqb_refl].
Qed.

(** C10.  A user is permitted exactly when the id of the admin role, of the
    essential role or of the prime role is among the ids of the roles they
    hold, or they are in the permitted set; so a user who holds one of the
    three roles is still permitted after any [unpermit]. *)
Theorem is_permitted_disjunction (E : env) (st : state) (user : Z) :
  (is_permitted E st user = true <->
   ADMIN_ROLE_ID E ∈ roles st user \/ ESSENTIAL_ROLE_ID E ∈ roles st user
   \/ PRIME_ROLE_ID E ∈ roles st user \/ user ∈ permitted_users st)
  /\ (forall author target,
        ADMIN_ROLE_ID E ∈ roles st user \/ ESSENTIAL_ROLE_ID E ∈ roles st user
        \/ PRIME_ROLE_ID E ∈ roles st user ->
        is_permitted E (fst (unpermit E st author target)) user = true).
Proof.
  split.
  - unfold is_permitted, is_admin, has_essential_role, has_prime_role.
    rewrite !orb_true_iff, !existsb_role, bool_decide_eq_true. tauto.
  - intros author target Hrole.
    unfold is_permitted, is_admin, has_essential_role, has_prime_role, roles in *.
    rewrite member_roles_unpermit.
    rewrite <- !existsb_role in Hrole.
    destruct Hrole as [H | [H | H]]; rewrite H; now rewrite ?orb_true_r.
Qed.

(** ** Expiry *)


(** ** Grants and manual revokes *)

Lemma permit_finite (E : env) (st : state) (author user : Z)
      (duration : string) (d : Z) :
  is_admin E st author = true ->
  parse_duration duration = Some (Seconds d) ->
  permit E st author user duration
  = (set_user_timeouts <[user := length (tasks st)]>
       (set_tasks (fun ts => ts ++ [{| coro := remove_permit_after_timeout user d;
                                       wake_at := clock st + d;
                                       status := Pending |}])
          (set_permitted_users (fun s => s ∪ {[user]}) st)),
     PermissionGranted duration).
Proof. intros Hadm Hd. unfold permit. now rewrite Hadm, Hd. Qed.

Lemma permit_infinite (E : env) (st : state) (author user : Z)
      (duration : string) :
  is_admin E st author = true ->
  parse_duration duration = Some Infinite ->
  permit E st author user duration
  = (set_permitted_users (fun s => s ∪ {[user]}) st,
     PermissionGranted "permanent").
Proof. intros Hadm Hd. unfold permit. now rewrite Hadm, Hd. Qed.

(** What a manual revoke of a permitted user leaves behind. *)
Lemma unpermit_granted (E : env) (st : state) (author user : Z) :
  is_admin E st author = true ->
  user ∈ permitted_users st ->
  snd (unpermit E st author user) = PermissionRevoked
  /\ (user ∉ permitted_users (fst (unpermit E st author user)))
  /\ user_timeouts (fst (unpermit E st author user)) !! user = None
  /\ (forall h, user_timeouts st !! user = Some h ->
                status_of h st = Some Pending ->
                status_of h (fst (unpermit E st author user)) = Some Cancelled).
Proof.
  intros Hadm Hin. unfold unpermit. rewrite Hadm. cbn [negb].
  rewrite (bool_decide_eq_true_2 _ Hin). cbn [fst snd user_timeouts set_permitted_users].
  split; [reflexivity|].
  destruct (user_timeouts st !! user) as [h0|] eqn:Hh; cbn.
  - split; [rewrite elem_of_difference, elem_of_singleton; tauto|].
    split; [apply lookup_delete_eq|].
    intros h [= <-]. unfold status_of. cbn. rewrite list_lookup_alter_eq.
    destruct (tasks st !! h0) as [t|]; [|discriminate].
    cbn. intros [= ->]. reflexivity.
  - split; [rewrite elem_of_difference, elem_of_singleton; tauto|].
    split; [exact Hh|]. discriminate.
Qed.


(** A grant whose duration parses to the unbounded duration creates no task
    and leaves the timeout map as it was, in [permit] and in [whitelist]
    alike; a manual revoke of a user permitted this way succeeds and leaves
    the user neither permitted nor bound to a handle. *)
Theorem infinite_grant_arms_no_timer (E : env) (st : state)
        (author author' user : Z) (duration plan : string) :
  parse_duration duration = Some Infinite ->
  let stp := fst (permit E st author user duration) in
  let stw := fst (whitelist E st author user duration plan) in
  tasks stp = tasks st
  /\ user_timeouts stp = user_timeouts st
  /\ tasks stw = tasks st
  /\ user_timeouts stw = user_timeouts st
  /\ (is_admin E st author = true -> is_admin E st author' = true ->
      user ∈ permitted_users stp
      /\ (snd (unpermit E stp author' user) = PermissionRevoked)
      /\ (user ∉ permitted_users (fst (unpermit E stp author' user)))
      /\ user_timeouts (fst (unpermit E stp author' user)) !! user = None).
Proof.
  intros Hd stp stw. subst stp stw.
  assert (Hp : tasks (fst (permit E st author user duration)) = tasks st
               /\ user_timeouts (fst (permit E st author user duration))
                  = user_timeouts st).
  { unfold permit. rewrite Hd. now destruct (negb (is_admin E st author)). }
  assert (Hw : tasks (fst (whitelist E st author user duration plan)) = tasks st
               /\ user_timeouts (fst (whitelist E st author user duration plan))
                  = user_timeouts st).
  { unfold whitelist. rewrite Hd.
    destruct (negb (is_admin E st author)); [now split|].
    destruct (negb _); [now split|].
    destruct (negb (get_role E _)); [now split|].
    destruct (discord E _ _); [|now split..].
    unfold send_in_try. destruct (ctx_send E _); now split. }
  destruct Hp as [Hp1 Hp2], Hw as [Hw1 Hw2].
  repeat (split; [assumption|]).
  intros Hadm Hadm'.
  rewrite (permit_infinite E st author user duration Hadm Hd). cbn [fst].
  assert (Hin : user ∈ permitted_users
                         (set_permitted_users (fun s => s ∪ {[user]}) st))
    by (cbn; apply elem_of_union_r, elem_of_singleton; reflexivity).
  split; [exact Hin|].
  destruct (unpermit_granted E
              (set_permitted_users (fun s => s ∪ {[user]}) st) author' user
              Hadm' Hin) as (H1 & H2 & H3 & _).
  now repeat split.
Qed.

(** C3, what the code does when the unbounded grant replaces a bounded one.
    In the demo world, a user permitted for one minute and then for ever is
    still bound, in the timeout map, to the sleeping timer of the first
    grant, and that timer takes the permission away when the minute is
    over. *)
Theorem infinite_regrant_keeps_old_handle :
  let st := run demo_env (initial demo_guild)
                [Permit 100 7 "1m"; Permit 100 7 "inf"] in
  parse_duration "inf" = Some Infinite
  /\ 7 ∈ permitted_users st
  /\ user_timeouts st !! 7 = Some 0%nat
  /\ status_of 0 st = Some Pending
  /\ 7 ∉ permitted_users (elapse demo_env 60 st).
Proof.
  cbv zeta. split; [reflexivity|].
  split; [by_compute|].
  split; [vm_compute; reflexivity|]. split; [vm_compute; reflexivity|].
  by_compute.
Qed.

(** C5, what the code does when a timer of another grant of the same user
    fires between the grant and the revoke.  In the demo world, user 7 is
    whitelisted for one minute and permitted for five.  When the role timer
    fires it deletes the user's entry of the timeout map, which holds the
    handle of the permit timer.  The revoke two minutes in succeeds but
    finds no handle to cancel: the permit timer keeps sleeping, its callback
    runs at the five minutes, and a permission granted for ever in the
    meantime is taken away by it. *)
Theorem revoke_misses_timer_after_foreign_expiry :
  let s1 := run demo_env (initial demo_guild)
                [Whitelist 100 7 "1m" "prime"; Permit 100 7 "5m"] in
  let s2 := elapse demo_env 120 s1 in
  let s3 := fst (unpermit demo_env s2 100 7) in
  let s4 := elapse demo_env 180 s3 in
  let s4' := run demo_env s3 [Permit 100 7 "inf"; Elapse 180] in
  user_timeouts s1 !! 7 = Some 1%nat
  /\ (coro <$> tasks s1 !! 1%nat) = Some (remove_permit_after_timeout 7 300)
  /\ status_of 0 s2 = Some Done
  /\ user_timeouts s2 !! 7 = None
  /\ status_of 1 s2 = Some Pending
  /\ (snd (unpermit demo_env s2 100 7) = PermissionRevoked)
  /\ clock s3 = 120
  /\ status_of 1 s3 = Some Pending
  /\ clock s4 = 300
  /\ status_of 1 s4 = Some Done
  /\ log s4 = [log_info_role_removed 7 3; log_info_permit_removed 7]
  /\ is_permitted demo_env (step demo_env s3 (Permit 100 7 "inf")) 7 = true
  /\ is_permitted demo_env s4' 7 = false.
Proof. cbv zeta. repeat split; vm_compute; reflexivity. Qed.

(** C1, what the code does.  Neither [permit] nor [whitelist] touches the
    tasks already in the event loop: the timer of a prior grant keeps
    sleeping.  In the demo world, user 7 is permitted for one minute and,
    thirty seconds later, for one hour; when the first minute is over the
    first timer fires, user 7 is no longer permitted and the handle of the
    second timer is gone from the timeout map. *)
Theorem regrant_leaves_prior_timer_running :
  (forall E st author user duration,
      take (length (tasks st)) (tasks (fst (permit E st author user duration)))
      = tasks st)
  /\ (forall E st author user duration plan,
         take (length (tasks st))
              (tasks (fst (whitelist E st author user duration plan)))
         = tasks st)
  /\ (let st1 := run demo_env (initial demo_guild)
                     [Permit 100 7 "1m"; Elapse 30; Permit 100 7 "1h"] in
      let st2 := elapse demo_env 30 st1 in
      clock st1 = 30
      /\ status_of 0 st1 = Some Pending
      /\ user_timeouts st1 !! 7 = Some 1%nat
      /\ is_permitted demo_env st1 7 = true
      /\ clock st2 = 60
      /\ status_of 0 st2 = Some Done
      /\ (7 ∉ permitted_users st2)
      /\ is_permitted demo_env st2 7 = false
      /\ user_timeouts st2 !! 7 = None
      /\ status_of 1 st2 = Some Pending).
Proof.
  split; [|split].
  - intros E st author user duration.
    destruct (tasks_permit E st author user duration) as [new ->].
    apply take_app_length.
  - intros E st author user duration plan.
    destruct (tasks_whitelist E st author user duration plan) as [new ->].
    apply take_app_length.
  - cbv zeta. repeat split; try (vm_compute; reflexivity).
    by_compute.
Qed.

(** C2, what the code does.  The role timer of [whitelist] and the permit
    timer of [permit] are kept in the one timeout map under the user's id.
    In the demo world, user 7 is permitted for one hour and then whitelisted
    for two hours: the handle of the permit timer is replaced by the handle
    of the role timer; revoking the permission by hand then cancels the role
    timer and not the permit timer, and the role is still held when the two
    hours are over, no call to remove it having been made. *)
Theorem timeout_map_shared_by_grant_kinds :
  let s1 := run demo_env (initial demo_guild) [Permit 100 7 "1h"] in
  let s2 := step demo_env s1 (Whitelist 100 7 "2h" "prime") in
  let s3 := step demo_env s2 (Unpermit 100 7) in
  let s4 := step demo_env s3 (Elapse 7200) in
  user_timeouts s1 !! 7 = Some 0%nat
  /\ user_timeouts s2 !! 7 = Some 1%nat
  /\ (coro <$> tasks s2 !! 0%nat) = Some (remove_permit_after_timeout 7 3600)
  /\ (coro <$> tasks s2 !! 1%nat) = Some (remove_role_after_timeout 7 3 7200)
  /\ status_of 0 s3 = Some Pending
  /\ status_of 1 s3 = Some Cancelled
  /\ status_of 0 s4 = Some Done
  /\ status_of 1 s4 = Some Cancelled
  /\ has_prime_role demo_env s4 7 = true
  /\ backend_calls s4 = [add_roles 7 3].
Proof. cbv zeta. repeat split; vm_compute; reflexivity. Qed.

(** ** The theorems at work on the demo world *)

Lemma parse_duration_errors_witness :
  (parse_duration "5x" = None
   /\ (String.length (string_of_N 5) <= 4300)%nat)
  /\ (not_inf "5x" /\ ~ int_literal (numeric_part "5x"))
  /\ parse_duration ("-" ++ string_of_N 5 ++ "h") = Some (Seconds (- 5 * 3600)).
Proof.
  assert (H1 : parse_duration "5x" = None) by reflexivity.
  assert (H2 : (String.length (string_of_N 5) <= 4300)%nat)
    by (apply Nat.leb_le; vm_compute; reflexivity).
  split; [now split|].
  pose proof parse_duration_errors
    as (_ & _ & _ & _ & _ & _ & _ & _ & Hiff & _ & Hneg).
  split; [exact (proj1 (Hiff "5x"%string) H1)|].
  exact (proj1 (proj2 (proj2 (Hneg 5%N H2)))).
Defined.


Lemma unauthorized_no_side_effects_witness :
  is_admin demo_env (initial demo_guild) 5 = false
  /\ whitelist demo_env (initial demo_guild) 5 7 "1h" "prime"
     = (initial demo_guild, AccessDenied)
  /\ permit demo_env (initial demo_guild) 5 7 "1h"
     = (initial demo_guild, AccessDenied)
  /\ unpermit demo_env (initial demo_guild) 5 7
     = (initial demo_guild, AccessDenied).
Proof.
  assert (H : is_admin demo_env (initial demo_guild) 5 = false)
    by (vm_compute; reflexivity).
  split; [exact H|].
  exact (unauthorized_no_side_effects demo_env (initial demo_guild) 5 7
           "1h" "prime" H).
Defined.

Lemma unpermit_not_granted_witness :
  (is_admin demo_env (initial demo_guild) 100 = true
   /\ 7 ∉ permitted_users (initial demo_guild))
  /\ unpermit demo_env (initial demo_guild) 100 7
     = (initial demo_guild, NotPermitted)
  /\ unpermit demo_env (fst (unpermit demo_env (initial demo_guild) 100 7)) 100 7
     = (initial demo_guild, NotPermitted).
Proof.
  assert (H1 : is_admin demo_env (initial demo_guild) 100 = true)
    by (vm_compute; reflexivity).
  assert (H2 : 7 ∉ permitted_users (initial demo_guild)) by by_compute.
  split; [now split|].
  exact (unpermit_not_granted demo_env (initial demo_guild) 100 7 H1 H2).
Defined.

Lemma is_permitted_disjunction_witness :
  let st := run demo_env (initial demo_guild)
                [Whitelist 100 7 "inf" "essential"; Permit 100 7 "1h"] in
  ESSENTIAL_ROLE_ID demo_env ∈ roles st 7
  /\ 7 ∈ permitted_users st
  /\ (7 ∉ permitted_users (fst (unpermit demo_env st 100 7)))
  /\ is_permitted demo_env (fst (unpermit demo_env st 100 7)) 7 = true.
Proof.
  intros st.
  assert (H : ESSENTIAL_ROLE_ID demo_env ∈ roles st 7) by by_compute.
  split; [exact H|]. split; [by_compute|]. split; [by_compute|].
  exact (proj2 (is_permitted_disjunction demo_env st 7)
           100 7 (or_intror (or_introl H))).
Defined.



Lemma infinite_grant_arms_no_timer_witness :
  let st := initial demo_guild in
  let stp := fst (permit demo_env st 100 7 "inf") in
  (parse_duration "inf" = Some Infinite /\ is_admin demo_env st 100 = true)
  /\ tasks stp = tasks st
  /\ user_timeouts stp = user_timeouts st
  /\ (snd (unpermit demo_env stp 100 7) = PermissionRevoked)
  /\ user_timeouts (fst (unpermit demo_env stp 100 7)) !! 7 = None.
Proof.
  intros st stp.
  assert (H1 : parse_duration "inf" = Some Infinite) by reflexivity.
  assert (H2 : is_admin demo_env st 100 = true) by (vm_compute; reflexivity).
  split; [now split|].
  pose proof (infinite_grant_arms_no_timer demo_env st 100 100 7 "inf" "prime"
                H1) as (Ht & Hu & _ & _ & Hrev).
  destruct (Hrev H2 H2) as (_ & Hr & _ & Hn).
  exact (conj Ht (conj Hu (conj Hr Hn))).
Defined.

(** * Further properties of the code *)

(** ** Durations *)

Lemma all_chars_snoc_false (p : ascii -> bool) (s : string) (c : ascii) :
  p c = false -> PyStr.all_chars p (s ++ String c EmptyString)%string = false.
Proof.
  intros Hc. induction s as [|a r IH].
  - change (p c && true = false). now rewrite Hc.
  - change (p a && PyStr.all_chars p (r ++ String c EmptyString)%string = false).
    rewrite IH. apply andb_false_r.
Qed.

(** A numeral followed by a letter that is no unit is rejected: the units
    are the lower-case [m], [h] and [d] only, so ["5M"], ["2H"] and ["30s"]
    are errors. *)
Theorem parse_duration_unknown_unit (n : N) (c : ascii) :
  int_alphabet c = false ->
  c <> "m"%char -> c <> "h"%char -> c <> "d"%char ->
  parse_duration (string_of_N n ++ String c EmptyString) = None.
Proof.
  intros Hc Hm Hh Hd. unfold parse_duration.
  rewrite (digit_head_not_inf_app n (String c EmptyString)).
  rewrite !endswith_snoc.
  destruct (Ascii.eqb_spec c "m"); [contradiction|].
  destruct (Ascii.eqb_spec c "h"); [contradiction|].
  destruct (Ascii.eqb_spec c "d"); [contradiction|].
  destruct (PyStr.int _) as [v|] eqn:Hv; [|reflexivity].
  apply int_alphabet_sound in Hv.
  now rewrite (all_chars_snoc_false int_alphabet _ c Hc) in Hv.
Qed.

Lemma parse_duration_unknown_unit_witness :
  (int_alphabet "M" = false /\ "M"%char <> "m"%char /\ "M"%char <> "h"%char
   /\ "M"%char <> "d"%char)
  /\ parse_duration (string_of_N 5 ++ "M") = None.
Proof.
  assert (H0 : int_alphabet "M" = false) by reflexivity.
  assert (H1 : "M"%char <> "m"%char) by discriminate.
  assert (H2 : "M"%char <> "h"%char) by discriminate.
  assert (H3 : "M"%char <> "d"%char) by discriminate.
  split; [now repeat split|].
  exact (parse_duration_unknown_unit 5 "M" H0 H1 H2 H3).
Defined.

(** Every bounded duration [parse_duration] returns is a whole number of
    minutes, whatever the unit. *)
Theorem parse_duration_whole_minutes (s : string) (n : Z) :
  parse_duration s = Some (Seconds n) -> (60 | n).
Proof.
  unfold parse_duration.
  destruct (_ || _); [discriminate|].
  destruct (PyStr.endswith s "m");
    [destruct (PyStr.int _) as [v|]; [|discriminate]; intros [= <-];
     exists v; lia|].
  destruct (PyStr.endswith s "h");
    [destruct (PyStr.int _) as [v|]; [|discriminate]; intros [= <-];
     exists (v * 60); lia|].
  destruct (PyStr.endswith s "d");
    [destruct (PyStr.int _) as [v|]; [|discriminate]; intros [= <-];
     exists (v * 1440); lia|].
  destruct (PyStr.int _) as [v|]; [|discriminate]. intros [= <-].
  exists v; lia.
Qed.

Lemma parse_duration_whole_minutes_witness :
  parse_duration "2h" = Some (Seconds 7200) /\ (60 | 7200).
Proof.
  assert (H : parse_duration "2h" = Some (Seconds 7200)) by reflexivity.
  split; [exact H|]. exact (parse_duration_whole_minutes "2h" 7200 H).
Defined.

Lemma roles_guild_add (user role : Z) (g : gmap Z (list Z)) :
  existsb (fun x => x =? role) (default [] (guild_add user role g !! user))
  = true.
Proof.
  unfold guild_add.
  destruct (existsb _ (default [] (g !! user))) eqn:Hex; [exact Hex|].
  rewrite lookup_insert_eq. cbn. rewrite existsb_app. cbn.
  now rewrite Z.eqb_refl, !orb_true_r.
Qed.

(** ** Rejected requests *)

(** An admin's [whitelist] request is checked in the order plan, duration,
    role: a plan that is neither [essential] nor [prime] is answered with the
    invalid-plan message whatever the duration; with a valid plan, a
    duration that does not parse is answered with the invalid-duration
    message; with both valid, a role the guild does not know is answered
    with the role-not-found message.  In all three cases the state is left
    as it was, so Discord is not called. *)
Theorem whitelist_rejects_before_backend (E : env) (st : state)
        (author user : Z) (duration plan : string) :
  is_admin E st author = true ->
  let valid_plan :=
    String.eqb (PyStr.lower plan) "essential"
    || String.eqb (PyStr.lower plan) "prime" in
  let role_id := if String.eqb (PyStr.lower plan) "essential"
                 then ESSENTIAL_ROLE_ID E else PRIME_ROLE_ID E in
  (valid_plan = false ->
   whitelist E st author user duration plan = (st, InvalidPlan))
  /\ (valid_plan = true -> parse_duration duration = None ->
      whitelist E st author user duration plan = (st, InvalidDuration))
  /\ (valid_plan = true -> parse_duration duration <> None ->
      get_role E role_id = false ->
      whitelist E st author user duration plan = (st, RoleNotFound)).
Proof.
  intros Hadm valid_plan role_id. subst valid_plan role_id.
  unfold whitelist. rewrite Hadm. cbn [negb].
  repeat split.
  - intros ->. reflexivity.
  - intros -> ->. reflexivity.
  - intros -> Hd Hr. cbn [negb].
    destruct (parse_duration duration); [|contradiction].
    now rewrite Hr.
Qed.

Lemma whitelist_rejects_before_backend_witness :
  is_admin demo_env (initial demo_guild) 100 = true
  /\ whitelist demo_env (initial demo_guild) 100 7 "soon" "gold"
     = (initial demo_guild, InvalidPlan)
  /\ whitelist demo_env (initial demo_guild) 100 7 "soon" "Prime"
     = (initial demo_guild, InvalidDuration).
Proof.
  assert (H : is_admin demo_env (initial demo_guild) 100 = true)
    by (vm_compute; reflexivity).
  split; [exact H|].
  pose proof (whitelist_rejects_before_backend demo_env (initial demo_guild)
                100 7 "soon" "gold" H) as (H1 & _ & _).
  pose proof (whitelist_rejects_before_backend demo_env (initial demo_guild)
                100 7 "soon" "Prime" H) as (_ & H2 & _).
  exact (conj (H1 eq_refl) (H2 eq_refl eq_refl)).
Defined.

(** An admin's [whitelist] request that passes the checks.  When Discord
    refuses or fails the [add_roles] call, the call is on record but nothing
    is granted: no timer is created, the timeout map, the permitted set and
    the guild's roles are as before; a refusal is answered with the
    permission-error message, any other failure leaves the handler and is
    logged.  When Discord accepts the call but forbids the message that
    reports it, the answer is the permission-error message all the same,
    yet the member holds the role and, for a bounded duration, the task of
    the timer is in the loop and on record. *)
Theorem whitelist_backend_failure_grants_nothing (E : env) (st : state)
        (author user : Z) (dur : duration) (duration plan : string) :
  is_admin E st author = true ->
  String.eqb (PyStr.lower plan) "essential"
  || String.eqb (PyStr.lower plan) "prime" = true ->
  parse_duration duration = Some dur ->
  let role_id := if String.eqb (PyStr.lower plan) "essential"
                 then ESSENTIAL_ROLE_ID E else PRIME_ROLE_ID E in
  get_role E role_id = true ->
  let r := whitelist E st author user duration plan in
  let answer := discord E (length (backend_calls st)) (add_roles user role_id) in
  backend_calls (fst r) = backend_calls st ++ [add_roles user role_id]
  /\ (answer ≠ OK ->
      tasks (fst r) = tasks st
      /\ user_timeouts (fst r) = user_timeouts st
      /\ permitted_users (fst r) = permitted_users st
      /\ member_roles (fst r) = member_roles st
      /\ (answer = Forbidden -> snd r = PermissionError /\ log (fst r) = log st)
      /\ (answer ≠ Forbidden ->
          snd r = CommandError /\ log (fst r) = log st ++ [log_error_command]))
  /\ (answer = OK ->
      ctx_send E (length (backend_calls st ++ [add_roles user role_id]))
      = Forbidden ->
      snd r = PermissionError
      /\ existsb (fun x => x =? role_id) (roles (fst r) user) = true
      /\ match dur with
         | Seconds d =>
             user_timeouts (fst r) !! user = Some (length (tasks st))
             /\ tasks (fst r)
                = tasks st ++ [{| coro := remove_role_after_timeout user role_id d;
                                  wake_at := clock st + d; status := Pending |}]
         | Infinite => tasks (fst r) = tasks st
         end).
Proof.
  intros Hadm Hplan Hd role_id Hrole r answer. subst r answer.
  unfold whitelist. rewrite Hadm, Hplan, Hd. cbn [negb]. fold role_id.
  rewrite Hrole. cbn [negb].
  destruct (discord E (length (backend_calls st)) (add_roles user role_id))
    eqn:Hans.
  - split; [|split; [intros H; contradiction|]].
    + destruct dur as [|d]; cbn [create_task]; unfold send_in_try;
        destruct (ctx_send E _); reflexivity.
    + intros _ Hsend. unfold roles.
      destruct dur as [|d]; cbn [create_task]; unfold send_in_try;
        cbn [backend_calls set_user_timeouts set_tasks set_member_roles
             record_call];
        rewrite Hsend; cbn.
      * split; [reflexivity|]. split; [apply roles_guild_add|reflexivity].
      * split; [reflexivity|]. split; [apply roles_guild_add|].
        split; [apply lookup_insert_eq|reflexivity].
  - split; [reflexivity|]. split; [|intros H; discriminate].
    intros _. cbn. do 4 (split; [reflexivity|]).
    split; [intros _; now split|intros Hne; now destruct Hne].
  - split; [reflexivity|]. split; [|intros H; discriminate].
    intros _. cbn. do 4 (split; [reflexivity|]).
    split; [intros Heq; discriminate|intros _; now split].
  - split; [reflexivity|]. split; [|intros H; discriminate].
    intros _. cbn. do 4 (split; [reflexivity|]).
    split; [intros Heq; discriminate|intros _; now split].
Qed.

Lemma whitelist_backend_failure_grants_nothing_witness :
  let st := initial demo_guild in
  let r := whitelist muted_env st 100 7 "1h" "Prime" in
  (is_admin muted_env st 100 = true
   /\ parse_duration "1h" = Some (Seconds 3600)
   /\ get_role muted_env 3 = true
   /\ discord muted_env 0 (add_roles 7 3) = OK
   /\ ctx_send muted_env 1 = Forbidden)
  /\ snd r = PermissionError
  /\ has_prime_role muted_env (fst r) 7 = true
  /\ user_timeouts (fst r) !! 7 = Some 0%nat.
Proof.
  intros st r.
  assert (H1 : is_admin muted_env st 100 = true) by (vm_compute; reflexivity).
  assert (H2 : parse_duration "1h" = Some (Seconds 3600)) by reflexivity.
  assert (H3 : get_role muted_env 3 = true) by reflexivity.
  assert (H4 : discord muted_env 0 (add_roles 7 3) = OK) by reflexivity.
  assert (H5 : ctx_send muted_env 1 = Forbidden) by reflexivity.
  split; [now repeat split|].
  pose proof (whitelist_backend_failure_grants_nothing muted_env st 100 7
                (Seconds 3600) "1h" "Prime" H1 eq_refl H2 H3)
    as (_ & _ & Hmuted).
  destruct (Hmuted H4 H5) as (Ha & Hb & Hc & _).
  exact (conj Ha (conj Hb Hc)).
Defined.

(** A [permit] request of an admin with a duration that does not parse is
    answered with the invalid-duration message and changes nothing: the
    user is not added to the permitted set. *)
Theorem permit_invalid_duration (E : env) (st : state) (author user : Z)
        (duration : string) :
  is_admin E st author = true ->
  parse_duration duration = None ->
  permit E st author user duration = (st, InvalidDuration).
Proof. intros Hadm Hd. unfold permit. now rewrite Hadm, Hd. Qed.

Lemma permit_invalid_duration_witness :
  (is_admin demo_env (initial demo_guild) 100 = true
   /\ parse_duration "5 minutes" = None)
  /\ permit demo_env (initial demo_guild) 100 7 "5 minutes"
     = (initial demo_guild, InvalidDuration).
Proof.
  assert (H1 : is_admin demo_env (initial demo_guild) 100 = true)
    by (vm_compute; reflexivity).
  assert (H2 : parse_duration "5 minutes" = None) by reflexivity.
  split; [now split|].
  exact (permit_invalid_duration demo_env (initial demo_guild) 100 7
           "5 minutes" H1 H2).
Defined.

(** ** Handles on record *)

Section HandleFacts.

Variable E : env.













End HandleFacts.



(** ** The life of a task *)

Section TaskFacts.

Variable E : env.

Lemma wake_task (h0 h : nat) (st : state) (t : task) :
  tasks st !! h = Some t ->
  exists t', tasks (wake E h0 st) !! h = Some t'
             /\ coro t' = coro t /\ wake_at t' = wake_at t
             /\ (status t ≠ Pending -> status t' = status t).
Proof.
  intros Ht. unfold wake.
  destruct (tasks st !! h0) as [t0|] eqn:Ht0; [|exists t; now repeat split].
  destruct (status t0) eqn:Hs0; [|exists t; now repeat split..].
  cbn [tasks set_tasks]. rewrite tasks_resume.
  destruct (decide (h0 = h)) as [->|Hne].
  - rewrite list_lookup_alter_eq, Ht. cbn. eexists. repeat split.
    rewrite Ht in Ht0. injection Ht0 as ->. congruence.
  - rewrite list_lookup_alter_ne by exact Hne. exists t. now repeat split.
Qed.

Lemma cancel_task (h0 h : nat) (st : state) (t : task) :
  tasks st !! h = Some t ->
  exists t', tasks (cancel h0 st) !! h = Some t'
             /\ coro t' = coro t /\ wake_at t' = wake_at t
             /\ (status t ≠ Pending -> status t' = status t).
Proof.
  intros Ht. unfold cancel. cbn [tasks set_tasks].
  destruct (decide (h0 = h)) as [->|Hne].
  - rewrite list_lookup_alter_eq, Ht. cbn.
    destruct (status t) eqn:Hs; eexists; repeat split; try reflexivity;
      try congruence.
  - rewrite list_lookup_alter_ne by exact Hne. exists t. now repeat split.
Qed.

Lemma append_task (st st' : state) (new : list task) (h : nat) (t : task) :
  tasks st' = tasks st ++ new ->
  tasks st !! h = Some t ->
  exists t', tasks st' !! h = Some t'
             /\ coro t' = coro t /\ wake_at t' = wake_at t
             /\ (status t ≠ Pending -> status t' = status t).
Proof.
  intros -> Ht. exists t.
  rewrite lookup_app_l by (apply lookup_lt_Some in Ht; exact Ht).
  now repeat split.
Qed.

Lemma foldl_wake_task (hs : list nat) (h : nat) :
  forall (st : state) (t : task),
    tasks st !! h = Some t ->
    exists t', tasks (foldl (fun s h0 => wake E h0 s) st hs) !! h = Some t'
               /\ coro t' = coro t /\ wake_at t' = wake_at t
               /\ (status t ≠ Pending -> status t' = status t).
Proof.
  induction hs as [|h0 hs IH]; intros st t Ht; [exists t; now repeat split|].
  cbn [foldl].
  destruct (wake_task h0 h st t Ht) as (t1 & Ht1 & Hc1 & Hw1 & Hs1).
  destruct (IH _ _ Ht1) as (t2 & Ht2 & Hc2 & Hw2 & Hs2).
  exists t2. repeat split; try congruence.
  intros Hs. rewrite Hs2; [now apply Hs1|]. rewrite (Hs1 Hs). exact Hs.
Qed.

Lemma step_task (ev : event) (st : state) (h : nat) (t : task) :
  tasks st !! h = Some t ->
  exists t', tasks (step E st ev) !! h = Some t'
             /\ coro t' = coro t /\ wake_at t' = wake_at t
             /\ (status t ≠ Pending -> status t' = status t).
Proof.
  intros Ht. destruct ev as [a u d p|a u d|a u|dt]; cbn [step].
  - destruct (tasks_whitelist E st a u d p) as [new Hnew].
    exact (append_task st _ new h t Hnew Ht).
  - destruct (tasks_permit E st a u d) as [new Hnew].
    exact (append_task st _ new h t Hnew Ht).
  - unfold unpermit. destruct (negb (is_admin E st a));
      [exists t; now repeat split|].
    destruct (bool_decide _); [|exists t; now repeat split].
    cbn [fst user_timeouts set_permitted_users].
    destruct (user_timeouts st !! u) as [h0|]; [|exists t; now repeat split].
    exact (cancel_task h0 h (set_permitted_users (fun s => s ∖ {[u]}) st) t Ht).
  - unfold elapse. cbn [tasks set_clock].
    assert (Ht0 : tasks (start_tasks st) !! h = Some (start_sleep t))
      by now rewrite tasks_start_tasks, Ht.
    destruct (foldl_wake_task (due (clock st + Z.of_N dt) (start_tasks st))
                h _ _ Ht0) as (t' & Ht' & Hc & Hw & Hs).
    destruct (start_sleep_task t) as (Hc0 & Hw0 & Hs0).
    exists t'. split; [exact Ht'|]. repeat split; try congruence.
    intros Hne. rewrite Hs; rewrite (Hs0 Hne); [reflexivity|exact Hne].
Qed.

Lemma status_of_run_settled (evs : list event) (h : nat) (s : task_status) :
  s ≠ Pending ->
  forall st : state,
    status_of h st = Some s -> status_of h (run E st evs) = Some s.
Proof.
  intros Hs. induction evs as [|ev evs IH]; intros st Hst; [exact Hst|].
  cbn [run foldl]. apply IH. unfold status_of in *.
  destruct (tasks st !! h) as [t|] eqn:Ht; [|discriminate].
  injection Hst as Hst.
  destruct (step_task ev st h t Ht) as (t' & -> & _ & _ & Hkeep).
  cbn. f_equal. rewrite Hkeep; congruence.
Qed.

End TaskFacts.

(** A task of the event loop is never dropped, and later commands and
    timers change neither the coroutine it runs nor its wake-up time: a
    regrant does not postpone a timer that is already armed.  Once a task is
    done or cancelled, its status never changes again. *)
Theorem armed_timers_are_fixed (E : env) (evs : list event) :
  forall (st : state) (h : nat) (t : task),
    tasks st !! h = Some t ->
    exists t', tasks (run E st evs) !! h = Some t'
               /\ coro t' = coro t /\ wake_at t' = wake_at t
               /\ (status t ≠ Pending -> status t' = status t).
Proof.
  induction evs as [|ev evs IH]; intros st h t Ht; [exists t; now repeat split|].
  cbn [run foldl].
  destruct (step_task E ev st h t Ht) as (t1 & Ht1 & Hc1 & Hw1 & Hs1).
  destruct (IH _ _ _ Ht1) as (t2 & Ht2 & Hc2 & Hw2 & Hs2).
  exists t2. split; [exact Ht2|]. repeat split; try congruence.
  intros Hs. rewrite Hs2; [now apply Hs1|]. rewrite (Hs1 Hs). exact Hs.
Qed.

Lemma armed_timers_are_fixed_witness :
  let st := fst (permit demo_env (initial demo_guild) 100 7 "1m") in
  let t := {| coro := remove_permit_after_timeout 7 60; wake_at := 60;
              status := Pending |} in
  tasks st !! 0%nat = Some t
  /\ exists t', tasks (run demo_env st [Elapse 30; Permit 100 7 "1h"]) !! 0%nat
                = Some t'
                /\ coro t' = coro t /\ wake_at t' = 60.
Proof.
  intros st t.
  assert (H : tasks st !! 0%nat = Some t) by (vm_compute; reflexivity).
  split; [exact H|].
  destruct (armed_timers_are_fixed demo_env [Elapse 30; Permit 100 7 "1h"]
              st 0%nat t H) as (t' & H1 & H2 & H3 & _).
  exists t'. exact (conj H1 (conj H2 H3)).
Defined.

(** ** A delay the clock cannot hold *)

(** A user is granted the permission for [d] seconds, a delay that does not
    fit the clock of the loop, and no other timer of that user is due in the
    next [dt] seconds.  At the next turn of the loop the task of the timer
    ends at its [asyncio.sleep], before its [try] block: from then on the
    user is permitted, the handle of the dead task stays in the timeout map,
    and the task never runs, whatever commands and lapses of time follow. *)
Lemma overflowing_permit_never_expires (E : env) (st : state)
      (author user : Z) (duration : string) (d : Z) (dt : N) :
  is_admin E st author = true ->
  parse_duration duration = Some (Seconds d) ->
  sleep_overflows d = true ->
  no_timer_due_for user (clock st + Z.of_N dt) st = true ->
  let h := length (tasks st) in
  let st2 := elapse E dt (fst (permit E st author user duration)) in
  user ∈ permitted_users st2
  /\ user_timeouts st2 !! user = Some h
  /\ status_of h st2 = Some Failed
  /\ forall evs, status_of h (run E st2 evs) = Some Failed
                 /\ wake E h (run E st2 evs) = run E st2 evs.
Proof.
  intros Hadm Hd Hover Hclean h st2. subst st2.
  rewrite (permit_finite E st author user duration d Hadm Hd). cbn [fst].
  set (new := {| coro := remove_permit_after_timeout user d;
                 wake_at := clock st + d; status := Pending |}).
  set (st1 := set_user_timeouts _ _).
  assert (Htasks : tasks st1 = tasks st ++ [new]) by reflexivity.
  assert (Hnew : tasks st1 !! h = Some new)
    by (rewrite Htasks; subst h; now rewrite list_lookup_middle).
  set (st0 := start_tasks st1).
  assert (Hs0 : status_of h st0 = Some Failed).
  { unfold status_of, st0. rewrite tasks_start_tasks, Hnew. cbn.
    unfold start_sleep. cbn. now rewrite Hover. }
  destruct (foldl_wake_other_user E user h (due (clock st1 + Z.of_N dt) st0) st0)
    as (Hp2 & Hh2 & Hs2).
  { intros h' Hin. destruct (due_spec _ _ _ Hin) as (t & Ht0 & Hpend & Hw).
    destruct (start_tasks_pending h' st1 t Ht0 Hpend) as [Ht Hfits].
    rewrite Htasks in Ht. apply lookup_app_Some in Ht as [Ht|[Hge Ht]].
    - split; [apply lookup_lt_Some in Ht; subst h; lia|].
      intros c. fold st0. rewrite Ht0. intros [= <-].
      exact (no_timer_due_for_spec user _ st h' t Hclean Ht Hpend Hw).
    - destruct (h' - length (tasks st))%nat; [|destruct n; discriminate].
      injection Ht as <-. cbn in Hfits. congruence. }
  cbn zeta in Hp2, Hh2, Hs2.
  assert (Hfailed : status_of h (elapse E dt st1) = Some Failed)
    by (rewrite <- Hs0; exact Hs2).
  split; [apply Hp2; cbn; apply elem_of_union_r, elem_of_singleton; reflexivity|].
  split; [etransitivity; [exact Hh2|cbn; apply lookup_insert_eq]|].
  split; [exact Hfailed|].
  intros evs.
  assert (Hc : status_of h (run E (elapse E dt st1) evs) = Some Failed)
    by (apply status_of_run_settled; [discriminate|exact Hfailed]).
  split; [exact Hc|]. apply wake_idle. rewrite Hc. discriminate.
Qed.

(** In the demo world: the numeral of ten to the power 310, read as
    minutes, is such a delay.  After one turn of the loop the timer of the
    grant is dead, user 7 is permitted and bound to its handle, and a day
    later nothing has changed; a manual revoke still succeeds and clears
    the entry, the task being left as it ended. *)
Lemma overflowing_permit_in_demo_world :
  let duration := string_of_N (10 ^ 310) in
  let st2 := run demo_env (initial demo_guild) [Permit 100 7 duration; Elapse 0] in
  let st3 := elapse demo_env 86400 st2 in
  let st4 := fst (unpermit demo_env st3 100 7) in
  parse_duration duration = Some (Seconds (10 ^ 310 * 60))
  /\ sleep_overflows (10 ^ 310 * 60) = true
  /\ 7 ∈ permitted_users st2
  /\ user_timeouts st2 !! 7 = Some 0%nat
  /\ status_of 0 st2 = Some Failed
  /\ 7 ∈ permitted_users st3
  /\ user_timeouts st3 !! 7 = Some 0%nat
  /\ status_of 0 st3 = Some Failed
  /\ snd (unpermit demo_env st3 100 7) = PermissionRevoked
  /\ user_timeouts st4 !! 7 = None
  /\ status_of 0 st4 = Some Failed.
Proof.
  cbv zeta.
  assert (Hd : parse_duration (string_of_N (10 ^ 310))
               = Some (Seconds (10 ^ 310 * 60))) by (vm_compute; reflexivity).
  assert (Ho : sleep_overflows (10 ^ 310 * 60) = true)
    by (vm_compute; reflexivity).
  destruct (overflowing_permit_never_expires demo_env (initial demo_guild)
              100 7 (string_of_N (10 ^ 310)) (10 ^ 310 * 60) 0
              eq_refl Hd Ho eq_refl) as (H1 & H2 & H3 & Hev).
  split; [exact Hd|]. split; [exact Ho|].
  split; [exact H1|]. split; [exact H2|]. split; [exact H3|].
  split; [by_compute|].
  split; [vm_compute; reflexivity|]. split; [exact (proj1 (Hev [Elapse 86400]))|].
  split; [vm_compute; reflexivity|].
  split; vm_compute; reflexivity.
Qed.

(** ** Expiry of a grant *)

Section ExpiryFacts.

Variable E : env.





Lemma permitted_users_resume (c : coroutine) (st : state) (v : Z) :
  v ∈ permitted_users (resume E c st) -> v ∈ permitted_users st.
Proof.
  destruct c as [u r d|u d]; cbn [resume]; unfold forget_timeout.
  - destruct (user_timeouts _ !! u); destruct (discord E _ _); exact id.
  - destruct (user_timeouts _ !! u); cbn;
      rewrite elem_of_difference; tauto.
Qed.

Lemma permitted_users_wake (h : nat) (st : state) (v : Z) :
  v ∈ permitted_users (wake E h st) -> v ∈ permitted_users st.
Proof.
  unfold wake. destruct (tasks st !! h) as [t|]; [|exact id].
  destruct (status t); [|exact id..]. apply permitted_users_resume.
Qed.






Lemma member_roles_forget_timeout (u : Z) (st : state) :
  member_roles (forget_timeout u st) = member_roles st.
Proof. unfold forget_timeout. now destruct (user_timeouts st !! u). Qed.


End ExpiryFacts.







(** ** What a command and a timer leave alone *)

Lemma same_for_refl (v : Z) (st : state) : same_for v st st.
Proof. now repeat split. Qed.

Lemma roles_guild_add_ne (user role v : Z) (g : gmap Z (list Z)) :
  user ≠ v -> guild_add user role g !! v = g !! v.
Proof.
  intros Hne. unfold guild_add. destruct (existsb _ _); [reflexivity|].
  now rewrite lookup_insert_ne.
Qed.

Lemma roles_guild_remove_ne (user role v : Z) (g : gmap Z (list Z)) :
  user ≠ v -> guild_remove user role g !! v = g !! v.
Proof.
  intros Hne. unfold guild_remove. destruct (g !! user); [|reflexivity].
  now rewrite lookup_insert_ne.
Qed.

(** A command about [user] leaves every other user as they were: their
    permission, their entry in the timeout map and their roles.  So does
    the callback of a timer bound to [user]. *)
Theorem commands_touch_target_only (E : env) (st : state) (author user v : Z)
        (duration plan : string) :
  user ≠ v ->
  same_for v st (fst (whitelist E st author user duration plan))
  /\ same_for v st (fst (permit E st author user duration))
  /\ same_for v st (fst (unpermit E st author user))
  /\ (forall h t, tasks st !! h = Some t -> coro_user (coro t) = user ->
                  same_for v st (wake E h st)).
Proof.
  intros Hne. split; [|split; [|split]].
  - unfold whitelist.
    destruct (negb (is_admin E st author)); [apply same_for_refl|].
    destruct (negb _); [apply same_for_refl|].
    destruct (parse_duration duration) as [dur|]; [|apply same_for_refl].
    destruct (negb (get_role E _)); [apply same_for_refl|].
    destruct (discord E _ _);
      [|unfold same_for, roles; cbn; now repeat split..].
    destruct dur as [|d]; cbn [create_task]; unfold send_in_try;
      destruct (ctx_send E _); unfold same_for, roles; cbn;
      rewrite ?lookup_insert_ne by exact Hne;
      rewrite roles_guild_add_ne by exact Hne; now repeat split.
  - unfold permit.
    destruct (negb (is_admin E st author)); [apply same_for_refl|].
    destruct (parse_duration duration) as [[|d]|]; [| |apply same_for_refl];
      unfold same_for, roles; cbn;
      rewrite ?lookup_insert_ne by exact Hne;
      (split; [|now split]);
      rewrite elem_of_union, elem_of_singleton; intuition congruence.
  - unfold unpermit.
    destruct (negb (is_admin E st author)); [apply same_for_refl|].
    destruct (bool_decide _); [|apply same_for_refl].
    cbn [fst user_timeouts set_permitted_users].
    destruct (user_timeouts st !! user); unfold same_for, roles; cbn;
      rewrite ?lookup_delete_ne by exact Hne;
      (split; [|now split]);
      rewrite elem_of_difference, elem_of_singleton; intuition congruence.
  - intros h t Ht Hu. unfold wake. rewrite Ht.
    destruct (status t); [|apply same_for_refl..].
    assert (Hc : coro_user (coro t) ≠ v) by congruence.
    destruct (resume_other_user E (coro t) st v Hc) as [Hp Hh].
    unfold same_for, roles. cbn [permitted_users user_timeouts member_roles set_tasks].
    split; [exact Hp|]. split; [exact Hh|].
    destruct (coro t) as [u r d|u d]; cbn [resume coro_user] in *;
      rewrite member_roles_forget_timeout.
    + destruct (discord E _ _); cbn; try reflexivity.
      now rewrite roles_guild_remove_ne.
    + reflexivity.
Qed.

Lemma commands_touch_target_only_witness :
  let st := fst (permit demo_env (initial demo_guild) 100 8 "1h") in
  (7 : Z) ≠ 8
  /\ same_for 8 st (fst (unpermit demo_env st 100 7))
  /\ same_for 8 st (fst (permit demo_env st 100 7 "1m")).
Proof.
  intros st.
  assert (H : (7 : Z) ≠ 8) by discriminate.
  split; [exact H|].
  pose proof (commands_touch_target_only demo_env st 100 7 8 "1m" "prime" H)
    as (_ & Hp & Hu & _).
  exact (conj Hu Hp).
Defined.

(** The permitted set gains a user in one way only: a [permit] request for
    that user by an admin with a duration that parses.  No [whitelist], no
    [unpermit] and no lapse of time adds anyone. *)
Theorem only_permit_adds_permission (E : env) (st : state) (ev : event) (v : Z) :
  v ∈ permitted_users (step E st ev) ->
  v ∉ permitted_users st ->
  exists author duration,
    ev = Permit author v duration
    /\ is_admin E st author = true
    /\ parse_duration duration ≠ None.
Proof.
  intros Hin Hnot. destruct ev as [a u d p|a u d|a u|dt]; cbn [step] in Hin.
  - exfalso. apply Hnot. revert Hin. unfold whitelist.
    destruct (negb (is_admin E st a)); [exact id|].
    destruct (negb _); [exact id|].
    destruct (parse_duration d) as [dur|]; [|exact id].
    destruct (negb (get_role E _)); [exact id|].
    destruct (discord E _ _);
      [destruct dur; cbn [create_task]; unfold send_in_try;
       destruct (ctx_send E _)|..]; exact id.
  - unfold permit in Hin.
    destruct (is_admin E st a) eqn:Hadm; [|contradiction].
    cbn [negb] in Hin.
    destruct (parse_duration d) as [dur|] eqn:Hd; [|contradiction].
    assert (Hu : v ∈ permitted_users st ∪ {[u]})
      by (destruct dur; exact Hin).
    apply elem_of_union in Hu as [Hu|Hu%elem_of_singleton]; [contradiction|].
    subst u. exists a, d. split; [reflexivity|]. split; [exact Hadm|].
    rewrite Hd. discriminate.
  - exfalso. apply Hnot. revert Hin. unfold unpermit.
    destruct (negb (is_admin E st a)); [exact id|].
    destruct (bool_decide _); [|exact id].
    cbn [fst user_timeouts set_permitted_users].
    destruct (user_timeouts st !! u); cbn; rewrite elem_of_difference; tauto.
  - exfalso. apply Hnot. revert Hin. unfold elapse.
    cbn [permitted_users set_clock].
    assert (Hfold : forall hs s,
               v ∈ permitted_users (foldl (fun s h => wake E h s) s hs) ->
               v ∈ permitted_users s).
    { induction hs as [|h hs IH]; intros s; [exact id|].
      cbn [foldl]. intros Hin.
      exact (permitted_users_wake E h s v (IH _ Hin)). }
    exact (Hfold _ (start_tasks st)).
Qed.

Lemma only_permit_adds_permission_witness :
  (7 ∈ permitted_users (step demo_env (initial demo_guild) (Permit 100 7 "1h"))
   /\ 7 ∉ permitted_users (initial demo_guild))
  /\ exists author duration,
      Permit 100 7 "1h" = Permit author 7 duration
      /\ is_admin demo_env (initial demo_guild) author = true
      /\ parse_duration duration ≠ None.
Proof.
  assert (H1 : 7 ∈ permitted_users
                     (step demo_env (initial demo_guild) (Permit 100 7 "1h")))
    by by_compute.
  assert (H2 : 7 ∉ permitted_users (initial demo_guild)) by by_compute.
  split; [now split|].
  exact (only_permit_adds_permission demo_env (initial demo_guild)
           (Permit 100 7 "1h") 7 H1 H2).
Defined.

(** ** Grant and revoke together *)

(** Granting the permission to a user who has neither the permission nor an
    entry in the timeout map, and revoking it at once, gives back the
    permitted set and the timeout map of before; the guild, the record of
    backend calls and the log are untouched, the tasks that were in the loop
    are as they were, and the timer the grant may have armed is cancelled. *)
Theorem permit_unpermit_round_trip (E : env) (st : state)
        (author author' user : Z) (duration : string) :
  is_admin E st author = true ->
  is_admin E st author' = true ->
  parse_duration duration ≠ None ->
  user ∉ permitted_users st ->
  user_timeouts st !! user = None ->
  let st2 := fst (unpermit E (fst (permit E st author user duration))
                           author' user) in
  permitted_users st2 = permitted_users st
  /\ user_timeouts st2 = user_timeouts st
  /\ take (length (tasks st)) (tasks st2) = tasks st
  /\ (forall h t, tasks st2 !! h = Some t -> (length (tasks st) <= h)%nat ->
                  status t = Cancelled)
  /\ member_roles st2 = member_roles st
  /\ backend_calls st2 = backend_calls st
  /\ log st2 = log st.
Proof.
  intros Hadm Hadm' Hd Hnot Hnone.
  assert (Hset : (permitted_users st ∪ {[user]}) ∖ {[user]} = permitted_users st).
  { apply set_eq. intros x.
    rewrite elem_of_difference, elem_of_union, elem_of_singleton.
    split; [intros [[Hx|Hx] Hne]; [exact Hx|contradiction]|].
    intros Hx. split; [now left|]. intros ->. contradiction. }
  assert (Hin : user ∈ permitted_users st ∪ {[user]})
    by (apply elem_of_union_r, elem_of_singleton; reflexivity).
  destruct (parse_duration duration) as [[|d]|] eqn:Hp; [| |contradiction].
  - rewrite (permit_infinite E st author user duration Hadm Hp). cbn [fst].
    unfold unpermit.
    change (is_admin E (set_permitted_users _ st) author')
      with (is_admin E st author').
    rewrite Hadm'. cbn [negb permitted_users set_permitted_users].
    rewrite (bool_decide_eq_true_2 _ Hin).
    cbn [user_timeouts set_permitted_users fst]. rewrite Hnone. cbn.
    rewrite Hset, firstn_all. repeat split.
    intros h t Ht Hle. apply lookup_lt_Some in Ht. lia.
  - rewrite (permit_finite E st author user duration d Hadm Hp). cbn [fst].
    unfold unpermit.
    change (is_admin E (set_user_timeouts _ _) author')
      with (is_admin E st author').
    rewrite Hadm'.
    cbn [negb permitted_users set_permitted_users set_user_timeouts set_tasks].
    rewrite (bool_decide_eq_true_2 _ Hin).
    cbn [user_timeouts set_permitted_users set_user_timeouts set_tasks fst].
    rewrite lookup_insert_eq. cbn.
    rewrite Hset, delete_insert_eq, (delete_id _ _ Hnone).
    rewrite alter_app_r_alt by lia. rewrite Nat.sub_diag. cbn.
    rewrite take_app_length.
    repeat split.
    intros h t Ht Hle. apply lookup_app_Some in Ht as [Ht|[_ Ht]].
    + apply lookup_lt_Some in Ht. lia.
    + destruct (h - length (tasks st))%nat as [|k]; [|destruct k; discriminate].
      now injection Ht as <-.
Qed.

Lemma permit_unpermit_round_trip_witness :
  let st := initial demo_guild in
  let st2 := fst (unpermit demo_env (fst (permit demo_env st 100 7 "1h")) 100 7) in
  (is_admin demo_env st 100 = true /\ parse_duration "1h" ≠ None
   /\ (7 ∉ permitted_users st) /\ user_timeouts st !! 7 = None)
  /\ permitted_users st2 = permitted_users st
  /\ user_timeouts st2 = user_timeouts st.
Proof.
  intros st st2.
  assert (H1 : is_admin demo_env st 100 = true) by (vm_compute; reflexivity).
  assert (H2 : parse_duration "1h" ≠ None) by discriminate.
  assert (H3 : 7 ∉ permitted_users st) by by_compute.
  assert (H4 : user_timeouts st !! 7 = None) by reflexivity.
  split; [now repeat split|].
  pose proof (permit_unpermit_round_trip demo_env st 100 100 7 "1h"
                H1 H1 H2 H3 H4) as (Ha & Hb & _).
  exact (conj Ha Hb).
Defined.

(** ** The status report *)

(** The number of permitted users in the status report follows the grants:
    a [permit] of an admin with a duration that parses adds one for a user
    not yet permitted and nothing for a user already permitted; an
    [unpermit] of an admin takes one away for a permitted user. *)
Theorem reported_count_follows_grants (E : env) (st : state) (author user : Z)
        (duration : string) (ready : bool) (n_guilds : nat) (latency_ms : Z) :
  is_admin E st author = true ->
  let report s :=
    reported_permitted_users (update_bot_status ready n_guilds latency_ms s) in
  (parse_duration duration ≠ None ->
   report (fst (permit E st author user duration))
   = if bool_decide (user ∈ permitted_users st)
     then report st else S (report st))
  /\ (user ∈ permitted_users st ->
      S (report (fst (unpermit E st author user))) = report st).
Proof.
  intros Hadm report. subst report. cbn [reported_permitted_users update_bot_status].
  split.
  - intros Hd.
    assert (Hp : permitted_users (fst (permit E st author user duration))
                 = permitted_users st ∪ {[user]}).
    { unfold permit. rewrite Hadm. cbn [negb].
      destruct (parse_duration duration) as [[|d]|]; [| |contradiction];
        reflexivity. }
    rewrite Hp. rewrite size_union_alt.
    destruct (bool_decide (user ∈ permitted_users st)) eqn:Hb.
    + apply bool_decide_eq_true_1 in Hb.
      assert (He : ({[user]} : gset Z) ∖ permitted_users st = ∅).
      { apply set_eq. intros x.
        rewrite elem_of_difference, elem_of_singleton, elem_of_empty.
        split; [intros [-> Hx]; contradiction|contradiction]. }
      rewrite He, size_empty. lia.
    + apply bool_decide_eq_false_1 in Hb.
      assert (He : ({[user]} : gset Z) ∖ permitted_users st = {[user]}).
      { apply set_eq. intros x.
        rewrite elem_of_difference, elem_of_singleton.
        split; [tauto|]. intros ->. now split. }
      rewrite He, size_singleton. lia.
  - intros Hin.
    assert (Hp : permitted_users (fst (unpermit E st author user))
                 = permitted_users st ∖ {[user]}).
    { unfold unpermit. rewrite Hadm. cbn [negb].
      rewrite (bool_decide_eq_true_2 _ Hin).
      cbn [fst user_timeouts set_permitted_users].
      now destruct (user_timeouts st !! user). }
    rewrite Hp. rewrite size_difference, size_singleton.
    + assert (Hpos : size (permitted_users st) ≠ 0%nat).
      { intros H0. apply size_empty_inv in H0.
        apply (not_elem_of_empty (C := gset Z) user). now rewrite <- H0. }
      lia.
    + intros x ->%elem_of_singleton. exact Hin.
Qed.

Lemma reported_count_follows_grants_witness :
  let st := initial demo_guild in
  let report s := reported_permitted_users (update_bot_status true 1 20 s) in
  (is_admin demo_env st 100 = true /\ parse_duration "1h" ≠ None)
  /\ report (fst (permit demo_env st 100 7 "1h")) = 1%nat.
Proof.
  intros st report.
  assert (H1 : is_admin demo_env st 100 = true) by (vm_compute; reflexivity).
  assert (H2 : parse_duration "1h" ≠ None) by discriminate.
  split; [now split|].
  exact (proj1 (reported_count_follows_grants demo_env st 100 7 "1h" true 1 20
                  H1) H2).
Defined.

(** ** The gate of [ping] *)




(** ** The calls made to Discord *)

Section CallFacts.

Variable E : env.

Lemma coro_cancel (h h' : nat) (st : state) :
  coro <$> tasks (cancel h st) !! h' = coro <$> tasks st !! h'.
Proof.
  unfold cancel. cbn [tasks set_tasks].
  destruct (decide (h = h')) as [<-|Hne].
  - rewrite list_lookup_alter_eq. destruct (tasks st !! h) as [t|]; [|reflexivity].
    cbn. now destruct (status t).
  - now rewrite list_lookup_alter_ne.
Qed.

Lemma backend_calls_forget_timeout (u : Z) (st : state) :
  backend_calls (forget_timeout u st) = backend_calls st.
Proof. unfold forget_timeout. now destruct (user_timeouts st !! u). Qed.

Lemma backend_calls_wake (h : nat) (st : state) :
  backend_calls (wake E h st) = backend_calls st
  \/ exists u r d,
      coro <$> tasks st !! h = Some (remove_role_after_timeout u r d)
      /\ backend_calls (wake E h st) = backend_calls st ++ [remove_roles u r].
Proof.
  unfold wake. destruct (tasks st !! h) as [t|] eqn:Ht; [|now left].
  destruct (status t); [|now left..].
  cbn [backend_calls set_tasks].
  destruct (coro t) as [u r d|u d] eqn:Hc; cbn [resume];
    rewrite backend_calls_forget_timeout.
  - right. exists u, r, d. cbn. rewrite Hc. split; [reflexivity|].
    now destruct (discord E _ _).
  - now left.
Qed.

(** The two invariants survive a call appended for a plan role, whether or
    not new tasks come with it, as long as a new role timer is for the
    member and role of that call. *)
Lemma calls_invariant_add (st st' : state) (user role : Z) (new : list task) :
  removals_paired st -> calls_on_plan_roles E st ->
  role = ESSENTIAL_ROLE_ID E \/ role = PRIME_ROLE_ID E ->
  backend_calls st' = backend_calls st ++ [add_roles user role] ->
  tasks st' = tasks st ++ new ->
  (forall t u r d, t ∈ new -> coro t = remove_role_after_timeout u r d ->
                   u = user /\ r = role) ->
  removals_paired st' /\ calls_on_plan_roles E st'.
Proof.
  intros [Htask Hcall] Hplan Hrole Hcalls Htasks Hnew.
  split; [split|].
  - intros h u r d Hh. rewrite Hcalls, Htasks in *.
    destruct ((tasks st ++ new) !! h) as [t|] eqn:Ht; [|discriminate].
    injection Hh as Hc.
    apply lookup_app_Some in Ht as [Ht|[_ Ht]].
    + apply elem_of_app. left. apply (Htask h u r d). now rewrite Ht, <- Hc.
    + destruct (Hnew t u r d) as [-> ->]; [|exact Hc|].
      * apply list_elem_of_lookup. eauto.
      * apply elem_of_app. right. now left.
  - intros j u r Hj. rewrite Hcalls in *.
    apply lookup_app_Some in Hj as [Hj|[_ Hj]].
    + destruct (Hcall j u r Hj) as (i & Hi & Hadd).
      exists i. split; [exact Hi|].
      rewrite lookup_app_l by (apply lookup_lt_Some in Hadd; exact Hadd).
      exact Hadd.
    + destruct (j - length (backend_calls st))%nat as [|k];
        [discriminate|destruct k; discriminate].
  - intros c Hc. rewrite Hcalls in Hc.
    apply elem_of_app in Hc as [Hc|Hc%list_elem_of_singleton];
      [now apply Hplan|]. subst c. exact Hrole.
Qed.

Lemma calls_invariant_same (st st' : state) (new : list task) :
  removals_paired st -> calls_on_plan_roles E st ->
  backend_calls st' = backend_calls st ->
  (forall h, coro <$> tasks st' !! h = coro <$> tasks st !! h
             \/ exists u d, coro <$> tasks st' !! h
                            = Some (remove_permit_after_timeout u d)) ->
  removals_paired st' /\ calls_on_plan_roles E st'.
Proof.
  intros [Htask Hcall] Hplan Hcalls Htasks.
  split; [split|].
  - intros h u r d Hh. rewrite Hcalls.
    destruct (Htasks h) as [Heq|(u' & d' & Heq)].
    + apply (Htask h u r d). now rewrite <- Heq.
    + rewrite Heq in Hh. discriminate.
  - intros j u r Hj. rewrite Hcalls in *. now apply Hcall.
  - intros c Hc. rewrite Hcalls in Hc. now apply Hplan.
Qed.

Lemma calls_invariant_wake (h : nat) (st : state) :
  removals_paired st -> calls_on_plan_roles E st ->
  removals_paired (wake E h st) /\ calls_on_plan_roles E (wake E h st).
Proof.
  intros Hpair Hplan.
  destruct (backend_calls_wake h st) as [Heq|(u & r & d & Hc & Heq)].
  - apply (calls_invariant_same st _ []); try assumption.
    intros h'. left. apply coro_wake.
  - destruct Hpair as [Htask Hcall].
    assert (Hadd : add_roles u r ∈ backend_calls st) by exact (Htask h u r d Hc).
    split; [split|].
    + intros h' u' r' d' Hh'. rewrite coro_wake in Hh'. rewrite Heq.
      apply elem_of_app. left. exact (Htask h' u' r' d' Hh').
    + intros j u' r' Hj. rewrite Heq in *.
      apply lookup_app_Some in Hj as [Hj|[Hge Hj]].
      * destruct (Hcall j u' r' Hj) as (i & Hi & Hi').
        exists i. split; [exact Hi|].
        rewrite lookup_app_l by (apply lookup_lt_Some in Hi'; exact Hi').
        exact Hi'.
      * destruct (j - length (backend_calls st))%nat as [|k] eqn:Hk;
          [|destruct k; discriminate].
        injection Hj as <- <-.
        apply list_elem_of_lookup in Hadd as [i Hi].
        exists i. split; [apply lookup_lt_Some in Hi; lia|].
        rewrite lookup_app_l by (apply lookup_lt_Some in Hi; exact Hi).
        exact Hi.
    + intros c Hin. rewrite Heq in Hin.
      apply elem_of_app in Hin as [Hin|Hin%list_elem_of_singleton];
        [now apply Hplan|]. subst c. exact (Hplan _ Hadd).
Qed.

Lemma calls_invariant_send (s : state) (sent : reply) :
  removals_paired s -> calls_on_plan_roles E s ->
  removals_paired (fst (send_in_try E s sent))
  /\ calls_on_plan_roles E (fst (send_in_try E s sent)).
Proof.
  intros Hp Hq. unfold send_in_try.
  destruct (ctx_send E _); split; solve [exact Hp | exact Hq].
Qed.

Lemma coro_start_tasks (h : nat) (st : state) :
  coro <$> tasks (start_tasks st) !! h = coro <$> tasks st !! h.
Proof.
  rewrite tasks_start_tasks. destruct (tasks st !! h) as [t|]; [|reflexivity].
  cbn. f_equal. apply start_sleep_task.
Qed.

Lemma calls_invariant_step (ev : event) (st : state) :
  removals_paired st -> calls_on_plan_roles E st ->
  removals_paired (step E st ev) /\ calls_on_plan_roles E (step E st ev).
Proof.
  intros Hpair Hplan. destruct ev as [a u d p|a u d|a u|dt]; cbn [step].
  - unfold whitelist.
    destruct (negb (is_admin E st a)); [now split|].
    destruct (negb _); [now split|].
    destruct (parse_duration d) as [dur|]; [|now split].
    destruct (negb (get_role E _)); [now split|].
    match goal with
    | |- context [add_roles u ?r] =>
        assert (Hrole : r = ESSENTIAL_ROLE_ID E \/ r = PRIME_ROLE_ID E)
          by (destruct (String.eqb _ _); [now left|now right]);
        set (role := r) in *
    end.
    destruct (discord E _ _); [destruct dur as [|d']|..]; cbn [fst].
    + apply calls_invariant_send;
        apply (calls_invariant_add st _ u role []); try assumption;
        try reflexivity; try (cbn; now rewrite app_nil_r);
        intros t u' r' d' Hin; now apply not_elem_of_nil in Hin.
    + cbn [create_task].
      apply calls_invariant_send;
        apply (calls_invariant_add st _ u role
                 [{| coro := remove_role_after_timeout u role d';
                     wake_at := clock st + d'; status := Pending |}]);
        try assumption; try reflexivity;
        intros t u' r' d'' ->%list_elem_of_singleton [= -> -> _]; now split.
    + apply (calls_invariant_add st _ u role []); try assumption;
        try reflexivity; [cbn; now rewrite app_nil_r|].
      intros t u' r' d' Hin. now apply not_elem_of_nil in Hin.
    + apply (calls_invariant_add st _ u role []); try assumption;
        try reflexivity; [cbn; now rewrite app_nil_r|].
      intros t u' r' d' Hin. now apply not_elem_of_nil in Hin.
    + apply (calls_invariant_add st _ u role []); try assumption;
        try reflexivity; [cbn; now rewrite app_nil_r|].
      intros t u' r' d' Hin. now apply not_elem_of_nil in Hin.
  - unfold permit.
    destruct (negb (is_admin E st a)); [now split|].
    destruct (parse_duration d) as [[|d']|]; [now split| |now split].
    apply (calls_invariant_same st _ []); try assumption; [reflexivity|].
    intros h. cbn.
    destruct (decide (h < length (tasks st))%nat) as [Hlt|Hge].
    + left. now rewrite lookup_app_l.
    + destruct (decide (h = length (tasks st))) as [->|Hne].
      * right. exists u, d'. now rewrite list_lookup_middle.
      * left. rewrite !lookup_ge_None_2; [reflexivity| |];
          rewrite ?length_app; cbn; lia.
  - unfold unpermit.
    destruct (negb (is_admin E st a)); [now split|].
    destruct (bool_decide _); [|now split].
    cbn [fst user_timeouts set_permitted_users].
    destruct (user_timeouts st !! u) as [h0|]; [|now split].
    apply (calls_invariant_same st _ []); try assumption; [reflexivity|].
    intros h. left.
    exact (coro_cancel h0 h (set_permitted_users (fun s => s ∖ {[u]}) st)).
  - unfold elapse.
    assert (Hfold : forall hs s,
               removals_paired s -> calls_on_plan_roles E s ->
               removals_paired (foldl (fun s h => wake E h s) s hs)
               /\ calls_on_plan_roles E (foldl (fun s h => wake E h s) s hs)).
    { induction hs as [|h hs IH]; intros s Hp Hq; [now split|].
      cbn. destruct (calls_invariant_wake h s Hp Hq) as [Hp' Hq'].
      now apply IH. }
    destruct (calls_invariant_same st (start_tasks st) [] Hpair Hplan eq_refl)
      as [Hp0 Hq0]; [intros h; left; apply coro_start_tasks|].
    exact (Hfold _ (start_tasks st) Hp0 Hq0).
Qed.

Lemma calls_invariant_run (evs : list event) (st : state) :
  removals_paired st -> calls_on_plan_roles E st ->
  removals_paired (run E st evs) /\ calls_on_plan_roles E (run E st evs).
Proof.
  revert st. induction evs as [|ev evs IH]; intros st Hp Hq; [now split|].
  cbn. destruct (calls_invariant_step ev st Hp Hq) as [Hp' Hq'].
  now apply IH.
Qed.

End CallFacts.

(** In every state the bot reaches, each removal of a role it has asked of
    Discord comes after a request to add that very role to that very
    member, and every call it has made is about the essential or the prime
    role: the bot never touches another role, and never takes a role from a
    member it did not give it to. *)
Theorem reachable_calls_paired (E : env) (g : gmap Z (list Z)) (st : state) :
  reachable E g st ->
  (forall j u r, backend_calls st !! j = Some (remove_roles u r) ->
                 exists i, (i < j)%nat
                           /\ backend_calls st !! i = Some (add_roles u r))
  /\ (forall c, c ∈ backend_calls st ->
                call_role c = ESSENTIAL_ROLE_ID E
                \/ call_role c = PRIME_ROLE_ID E).
Proof.
  intros [evs ->].
  destruct (calls_invariant_run E evs (initial g)) as [[_ Hpair] Hplan].
  - split.
    + intros h u r d Hh. cbn in Hh. discriminate.
    + intros j u r Hj. cbn in Hj. discriminate.
  - intros c Hc. cbn in Hc. now apply not_elem_of_nil in Hc.
  - now split.
Qed.

Lemma reachable_calls_paired_witness :
  let st := run demo_env (initial demo_guild)
                [Whitelist 100 7 "1m" "prime"; Elapse 60] in
  reachable demo_env demo_guild st
  /\ backend_calls st = [add_roles 7 3; remove_roles 7 3]
  /\ exists i, (i < 1)%nat /\ backend_calls st !! i = Some (add_roles 7 3).
Proof.
  intros st.
  assert (H : reachable demo_env demo_guild st) by (eexists; reflexivity).
  assert (Hc : backend_calls st = [add_roles 7 3; remove_roles 7 3])
    by (vm_compute; reflexivity).
  split; [exact H|]. split; [exact Hc|].
  apply (proj1 (reachable_calls_paired demo_env demo_guild st H) 1%nat 7 3).
  now rewrite Hc.
Defined.
